(** * TCP transport options of nanomsg: [src/transports/tcp/tcp.c]

    A shallow embedding of the TCP option set ([nn_tcp_optset],
    [nn_tcp_optset_setopt], [nn_tcp_optset_getopt]) and of the routine that
    pushes the resolved options onto a live socket ([nn_tcp_set_options]),
    followed by the properties the design document states about them.

    Conventions of the embedding:
    - a C [int] is a [Z] in the range [INT_MIN .. INT_MAX] (32 bits, two's
      complement); [sizeof (int)] is 4;
    - a [size_t] byte count is an [N];
    - memory reached through [void *] is a [list byte]; an [int] is laid out
      least significant byte first;
    - [-EINVAL] and [-ENOPROTOOPT] are kept symbolic ([errno]);
    - the constants of the headers that are not part of this file
      ([NN_TCP_NODELAY], [NN_SNDBUF], ...) are the fields of a class, so
      nothing depends on their numeric values. *)

From Stdlib Require Import ZArith NArith List Bool Lia.
From Stdlib Require Import Strings.Byte.
Import ListNotations.

Local Open Scope Z_scope.

(* ================================================================= *)
(** ** Machine integers and their object representation *)

Definition size_t := N.

Definition sizeof_int : size_t := 4%N.

Definition INT_MIN : Z := - 2 ^ 31.
Definition INT_MAX : Z := 2 ^ 31 - 1.

Definition in_int_range (v : Z) : Prop := INT_MIN <= v <= INT_MAX.

(** Reduction of an unsigned 32-bit pattern to the signed value it denotes. *)
Definition to_signed (u : Z) : Z :=
  if u mod 2 ^ 32 <? 2 ^ 31 then u mod 2 ^ 32 else u mod 2 ^ 32 - 2 ^ 32.

Definition Z_of_byte (b : byte) : Z := Z.of_N (Byte.to_N b).

Definition byte_of_Z (z : Z) : byte :=
  match Byte.of_N (Z.to_N (z mod 256)) with
  | Some b => b
  | None => x00
  end.

(** Unsigned little-endian value of a byte sequence. *)
Fixpoint le_combine (l : list byte) : Z :=
  match l with
  | [] => 0
  | b :: l' => Z_of_byte b + 256 * le_combine l'
  end.

(** Little-endian split of [v] into [n] bytes. *)
Fixpoint le_split (n : nat) (v : Z) : list byte :=
  match n with
  | O => []
  | S n' => byte_of_Z v :: le_split n' (v / 256)
  end.

(** [&intval] seen as bytes. *)
Definition int_to_bytes (v : Z) : list byte :=
  le_split (N.to_nat sizeof_int) v.

(** [*(int* ) optval]: the [int] stored in the first [sizeof (int)] bytes. *)
Definition load_int (optval : list byte) : Z :=
  to_signed (le_combine (firstn (N.to_nat sizeof_int) optval)).

(** [memcpy (dst, src, n)]: the first [n] bytes of [dst] are replaced by the
    first [n] bytes of [src]. *)
Definition memcpy (dst src : list byte) (n : size_t) : list byte :=
  firstn (N.to_nat n) src ++ skipn (N.to_nat n) dst.

(* ================================================================= *)
(** ** Constants of the headers *)

(** Option levels and option names of [nn.h] and [tcp.h].  The file only
    compares them with each other, so they stay abstract. *)
Class nn_consts : Set := {
  NN_SOL_SOCKET : Z;
  NN_SNDBUF : Z;
  NN_RCVBUF : Z;
  NN_KEEPALIVE : Z;
  NN_TCP : Z;
  NN_TCP_NODELAY : Z;
  NN_TCP_KEEPIDLE : Z;
  NN_TCP_KEEPINTVL : Z;
  NN_TCP_KEEPCNT : Z
}.

(** The four labels of the [switch] statements are pairwise different (a C
    compiler refuses duplicate [case] labels). *)
Definition case_labels_distinct `{nn_consts} : Prop :=
  NoDup [NN_TCP_NODELAY; NN_TCP_KEEPIDLE; NN_TCP_KEEPINTVL; NN_TCP_KEEPCNT].

(** An option identifier the TCP option set knows. *)
Definition known_option `{nn_consts} (option : Z) : Prop :=
  In option [NN_TCP_NODELAY; NN_TCP_KEEPIDLE; NN_TCP_KEEPINTVL; NN_TCP_KEEPCNT].

(** Error numbers, returned negated by the C code. *)
Inductive errno : Set := EINVAL | ENOPROTOOPT.

(** The [int] result of the option-set entry points: [0], [-EINVAL] or
    [-ENOPROTOOPT]. *)
Inductive rc : Set :=
| Success : rc
| Neg : errno -> rc.

(* ================================================================= *)
(** ** The TCP option set *)

(** [struct nn_tcp_optset] (the [base] member only carries the table of
    function pointers). *)
Record nn_tcp_optset_t : Set := mk_optset {
  nodelay : Z;
  keepidle : Z;
  keepintvl : Z;
  keepcnt : Z
}.

(** [nn_tcp_optset ()]: the default values.  The allocation is taken to
    succeed ([alloc_assert] ends the process otherwise). *)
Definition nn_tcp_optset : nn_tcp_optset_t :=
  {| nodelay := 0;
     keepidle := -1;
     keepintvl := -1;
     keepcnt := -1 |}.

Section OptionSet.

Context `{nn_consts}.

(** [nn_tcp_optset_setopt (self, option, optval, optvallen)].  [optval] is
    the memory the caller points to and [optvallen] the length the caller
    announces for it.  The result is the return code and the option set after
    the call.  [nn_slow] is a branch-prediction hint and leaves the condition
    as it is; the cases of the [switch] are tried in the order of the text. *)
Definition nn_tcp_optset_setopt (optset : nn_tcp_optset_t) (option : Z)
    (optval : list byte) (optvallen : size_t) : rc * nn_tcp_optset_t :=
  if negb (optvallen =? sizeof_int)%N then (Neg EINVAL, optset)
  else
    let val := load_int optval in
    if option =? NN_TCP_NODELAY then
      if negb (val =? 0) && negb (val =? 1) then (Neg EINVAL, optset)
      else (Success, {| nodelay := val;
                        keepidle := keepidle optset;
                        keepintvl := keepintvl optset;
                        keepcnt := keepcnt optset |})
    else if option =? NN_TCP_KEEPIDLE then
      if val <=? 0 then (Neg EINVAL, optset)
      else (Success, {| nodelay := nodelay optset;
                        keepidle := val;
                        keepintvl := keepintvl optset;
                        keepcnt := keepcnt optset |})
    else if option =? NN_TCP_KEEPINTVL then
      if val <=? 0 then (Neg EINVAL, optset)
      else (Success, {| nodelay := nodelay optset;
                        keepidle := keepidle optset;
                        keepintvl := val;
                        keepcnt := keepcnt optset |})
    else if option =? NN_TCP_KEEPCNT then
      if val <=? 0 then (Neg EINVAL, optset)
      else (Success, {| nodelay := nodelay optset;
                        keepidle := keepidle optset;
                        keepintvl := keepintvl optset;
                        keepcnt := val |})
    else (Neg ENOPROTOOPT, optset).

(** The [switch] of [nn_tcp_optset_getopt]: the field an option names. *)
Definition getopt_intval (optset : nn_tcp_optset_t) (option : Z)
    : Datatypes.option Z :=
  if option =? NN_TCP_NODELAY then Some (nodelay optset)
  else if option =? NN_TCP_KEEPIDLE then Some (keepidle optset)
  else if option =? NN_TCP_KEEPINTVL then Some (keepintvl optset)
  else if option =? NN_TCP_KEEPCNT then Some (keepcnt optset)
  else None.

(** [nn_tcp_optset_getopt (self, option, optval, optvallen)].  [optval] is the
    destination buffer and [optvallen] the capacity the caller announces in
    [*optvallen].  The result is the return code, the buffer and [*optvallen]
    after the call; the option set is only read. *)
Definition nn_tcp_optset_getopt (optset : nn_tcp_optset_t) (option : Z)
    (optval : list byte) (optvallen : size_t) : rc * list byte * size_t :=
  match getopt_intval optset option with
  | None => (Neg ENOPROTOOPT, optval, optvallen)
  | Some intval =>
      (Success,
       memcpy optval (int_to_bytes intval)
         (if (optvallen <? sizeof_int)%N then optvallen else sizeof_int),
       sizeof_int)
  end.

(** The three keep-alive tuning options. *)
Definition tunings : list Z :=
  [NN_TCP_KEEPIDLE; NN_TCP_KEEPINTVL; NN_TCP_KEEPCNT].

(** The field of the option set that [option] names holds [intval]. *)
Definition stored (optset : nn_tcp_optset_t) (option intval : Z) : Prop :=
  (option = NN_TCP_NODELAY /\ intval = nodelay optset) \/
  (option = NN_TCP_KEEPIDLE /\ intval = keepidle optset) \/
  (option = NN_TCP_KEEPINTVL /\ intval = keepintvl optset) \/
  (option = NN_TCP_KEEPCNT /\ intval = keepcnt optset).

(** The outcome of storing the integer [v] under [option] and reading it
    back into [optval] with announced capacity [c]: both calls succeed, the
    size reported is [sizeof (int)], and the destination starts with the
    bytes of [v], which decode to [v]. *)
Definition round_trip (optset : nn_tcp_optset_t) (option v : Z)
    (optval : list byte) (c : size_t) : Prop :=
  let (r, optset') :=
    nn_tcp_optset_setopt optset option (int_to_bytes v) sizeof_int in
  let '(r', buf, sz) := nn_tcp_optset_getopt optset' option optval c in
  r = Success /\ r' = Success /\ sz = sizeof_int /\
  firstn (N.to_nat sizeof_int) buf = int_to_bytes v /\ load_int buf = v.

End OptionSet.

(* ================================================================= *)
(** ** Applying the options to a live socket *)

(** Socket levels and option names of the operating system.  They are only
    handed over to [nn_usock_setsockopt]. *)
Inductive os_level : Set := SOL_SOCKET | IPPROTO_TCP.

Inductive os_optname : Set :=
| SO_SNDBUF | SO_RCVBUF | SO_KEEPALIVE
| TCP_NODELAY | TCP_KEEPIDLE | TCP_KEEPINTVL | TCP_KEEPCNT.

(** Which of the conditionally compiled blocks the platform enables
    ([#if defined SO_KEEPALIVE] and so on). *)
Record platform : Set := mk_platform {
  defined_SO_KEEPALIVE : bool;
  defined_TCP_NODELAY : bool;
  defined_TCP_KEEPIDLE : bool;
  defined_TCP_KEEPINTVL : bool;
  defined_TCP_KEEPCNT : bool
}.

(** What [nn_tcp_set_options] does to its two collaborators: a read of the
    endpoint's options, or a [setsockopt] on the socket with the [int] passed
    and its length. *)
Inductive event : Set :=
| Getopt (level option : Z)
| Setsockopt (level : os_level) (optname : os_optname) (optval : Z)
    (optlen : size_t).

(** A computation emits events and either returns or is stopped by a failed
    [nn_assert]. *)
Definition M (A : Type) : Type := Datatypes.option A * list event.

Definition ret {A : Type} (a : A) : M A := (Some a, []).

Definition bind {A B : Type} (m : M A) (k : A -> M B) : M B :=
  match m with
  | (Some a, t) => let (r, t') := k a in (r, t ++ t')
  | (None, t) => (None, t)
  end.

Definition emit (e : event) : M unit := (Some tt, [e]).

Definition nn_assert (b : bool) : M unit :=
  if b then ret tt else (None, []).

Definition result {A : Type} (m : M A) : Datatypes.option A := fst m.
Definition trace {A : Type} (m : M A) : list event := snd m.

Declare Scope m_scope.
Delimit Scope m_scope with M.
Notation "x <- m ;; k" := (bind m (fun x => k))
  (at level 61, m at next level, right associativity) : m_scope.
Notation "' p <- m ;; k" := (bind m (fun p => k))
  (at level 61, p pattern, m at next level, right associativity) : m_scope.
Notation "m ;; k" := (bind m (fun _ => k))
  (at level 61, right associativity) : m_scope.

Definition nn_usock_setsockopt (level : os_level) (optname : os_optname)
    (optval : Z) (optlen : size_t) : M unit :=
  emit (Setsockopt level optname optval optlen).

Section SetOptions.

Context `{nn_consts}.

(** The endpoint whose options are read.  [nn_epbase_getopt] is given the
    contents of [val] and [sz] before the call and returns their contents
    after it; its return code is not looked at by [nn_tcp_set_options]. *)
Context {epbase : Type}.
Variable nn_epbase_getopt : epbase -> Z -> Z -> Z -> size_t -> Z * size_t.

Definition epbase_getopt (source : epbase) (level option : Z) (val : Z)
    (sz : size_t) : M (Z * size_t) :=
  (emit (Getopt level option) ;;
   ret (nn_epbase_getopt source level option val sz))%M.

Local Open Scope m_scope.

(** [nn_tcp_set_options (source, sock)] on platform [pf].  [val] is the
    content of the local variable [val] on entry, which the C code leaves
    uninitialised.  Each conditionally compiled block hands the content of
    [val] on to the next one. *)
Definition nn_tcp_set_options (pf : platform) (source : epbase) (val : Z)
    : M unit :=
  let sz := sizeof_int in
  '(val, sz) <- epbase_getopt source NN_SOL_SOCKET NN_SNDBUF val sz ;;
  nn_assert (sz =? sizeof_int)%N ;;
  nn_usock_setsockopt SOL_SOCKET SO_SNDBUF val sizeof_int ;;

  let sz := sizeof_int in
  '(val, sz) <- epbase_getopt source NN_SOL_SOCKET NN_RCVBUF val sz ;;
  nn_assert (sz =? sizeof_int)%N ;;
  nn_usock_setsockopt SOL_SOCKET SO_RCVBUF val sizeof_int ;;

  val <- (if defined_SO_KEEPALIVE pf then
            let sz := sizeof_int in
            '(val, sz) <- epbase_getopt source NN_SOL_SOCKET NN_KEEPALIVE val sz ;;
            nn_assert (sz =? sizeof_int)%N ;;
            nn_usock_setsockopt SOL_SOCKET SO_KEEPALIVE val sizeof_int ;;
            ret val
          else ret val) ;;

  val <- (if defined_TCP_NODELAY pf then
            let sz := sizeof_int in
            '(val, sz) <- epbase_getopt source NN_TCP NN_TCP_NODELAY val sz ;;
            nn_assert (sz =? sizeof_int)%N ;;
            nn_usock_setsockopt IPPROTO_TCP TCP_NODELAY val sizeof_int ;;
            ret val
          else ret val) ;;

  val <- (if defined_TCP_KEEPIDLE pf then
            let sz := sizeof_int in
            '(val, sz) <- epbase_getopt source NN_TCP NN_TCP_KEEPIDLE val sz ;;
            nn_assert (sz =? sizeof_int)%N ;;
            (if val >=? 0 then
               nn_usock_setsockopt IPPROTO_TCP TCP_KEEPIDLE val sizeof_int
             else ret tt) ;;
            ret val
          else ret val) ;;

  val <- (if defined_TCP_KEEPINTVL pf then
            let sz := sizeof_int in
            '(val, sz) <- epbase_getopt source NN_TCP NN_TCP_KEEPINTVL val sz ;;
            nn_assert (sz =? sizeof_int)%N ;;
            (if val >=? 0 then
               nn_usock_setsockopt IPPROTO_TCP TCP_KEEPINTVL val sizeof_int
             else ret tt) ;;
            ret val
          else ret val) ;;

  val <- (if defined_TCP_KEEPCNT pf then
            let sz := sizeof_int in
            '(val, sz) <- epbase_getopt source NN_TCP NN_TCP_KEEPCNT val sz ;;
            nn_assert (sz =? sizeof_int)%N ;;
            (if val >=? 0 then
               nn_usock_setsockopt IPPROTO_TCP TCP_KEEPCNT val sizeof_int
             else ret tt) ;;
            ret val
          else ret val) ;;

  ret tt.

(** The endpoint resolves option [option] of level [level] to the [int] [v]:
    whatever [val] held, the read stores [v] there and reports the size of an
    [int]. *)
Definition resolves (source : epbase) (level option : Z) (v : Z) : Prop :=
  forall val, nn_epbase_getopt source level option val sizeof_int
              = (v, sizeof_int).

(** The seven values [nn_tcp_set_options] asks the endpoint for. *)
Record resolved : Set := mk_resolved {
  r_sndbuf : Z;
  r_rcvbuf : Z;
  r_keepalive : Z;
  r_nodelay : Z;
  r_keepidle : Z;
  r_keepintvl : Z;
  r_keepcnt : Z
}.

Definition resolves_to (source : epbase) (r : resolved) : Prop :=
  resolves source NN_SOL_SOCKET NN_SNDBUF (r_sndbuf r) /\
  resolves source NN_SOL_SOCKET NN_RCVBUF (r_rcvbuf r) /\
  resolves source NN_SOL_SOCKET NN_KEEPALIVE (r_keepalive r) /\
  resolves source NN_TCP NN_TCP_NODELAY (r_nodelay r) /\
  resolves source NN_TCP NN_TCP_KEEPIDLE (r_keepidle r) /\
  resolves source NN_TCP NN_TCP_KEEPINTVL (r_keepintvl r) /\
  resolves source NN_TCP NN_TCP_KEEPCNT (r_keepcnt r).

End SetOptions.

(* ================================================================= *)
(** ** Reading a trace *)

(** An event without the value it carries. *)
Inductive step : Set :=
| Read (level option : Z)
| Apply (level : os_level) (optname : os_optname).

Definition step_of (e : event) : step :=
  match e with
  | Getopt level option => Read level option
  | Setsockopt level optname _ _ => Apply level optname
  end.

Definition steps {A : Type} (m : M A) : list step := map step_of (trace m).

(** The [setsockopt] calls of a trace, in the order they were issued. *)
Definition set_calls (t : list event) : list event :=
  filter (fun e => match e with Setsockopt _ _ _ _ => true | _ => false end) t.

(** The option names of the [setsockopt] calls of a trace, in order. *)
Definition applied_names (t : list event) : list os_optname :=
  flat_map (fun e => match e with
                     | Setsockopt _ optname _ _ => [optname]
                     | Getopt _ _ => []
                     end) t.

Definition optname_eqb (a b : os_optname) : bool :=
  match a, b with
  | SO_SNDBUF, SO_SNDBUF | SO_RCVBUF, SO_RCVBUF
  | SO_KEEPALIVE, SO_KEEPALIVE | TCP_NODELAY, TCP_NODELAY
  | TCP_KEEPIDLE, TCP_KEEPIDLE | TCP_KEEPINTVL, TCP_KEEPINTVL
  | TCP_KEEPCNT, TCP_KEEPCNT => true
  | _, _ => false
  end.

(** The [setsockopt] calls of a trace that set [optname]. *)
Definition calls_for (optname : os_optname) (t : list event) : list event :=
  filter (fun e => match e with
                   | Setsockopt _ n _ _ => optname_eqb n optname
                   | Getopt _ _ => false
                   end) t.

(** A [setsockopt] call for [optname] occurs in the trace. *)
Definition issued (optname : os_optname) (t : list event) : Prop :=
  In optname (applied_names t).

(** [l1] is obtained from [l2] by deleting elements. *)
Inductive Subseq {A : Type} : list A -> list A -> Prop :=
| Subseq_nil : Subseq [] []
| Subseq_skip (x : A) (l1 l2 : list A) : Subseq l1 l2 -> Subseq l1 (x :: l2)
| Subseq_keep (x : A) (l1 l2 : list A) :
    Subseq l1 l2 -> Subseq (x :: l1) (x :: l2).

(** The seven reads and the seven calls in the order of the source text. *)
Definition canonical_order `{nn_consts} : list step :=
  [ Read NN_SOL_SOCKET NN_SNDBUF;     Apply SOL_SOCKET SO_SNDBUF;
    Read NN_SOL_SOCKET NN_RCVBUF;     Apply SOL_SOCKET SO_RCVBUF;
    Read NN_SOL_SOCKET NN_KEEPALIVE;  Apply SOL_SOCKET SO_KEEPALIVE;
    Read NN_TCP NN_TCP_NODELAY;       Apply IPPROTO_TCP TCP_NODELAY;
    Read NN_TCP NN_TCP_KEEPIDLE;      Apply IPPROTO_TCP TCP_KEEPIDLE;
    Read NN_TCP NN_TCP_KEEPINTVL;     Apply IPPROTO_TCP TCP_KEEPINTVL;
    Read NN_TCP NN_TCP_KEEPCNT;       Apply IPPROTO_TCP TCP_KEEPCNT ].

Definition canonical_names : list os_optname :=
  [SO_SNDBUF; SO_RCVBUF; SO_KEEPALIVE; TCP_NODELAY;
   TCP_KEEPIDLE; TCP_KEEPINTVL; TCP_KEEPCNT].

(** The events of one block of [nn_tcp_set_options] that reads [option] of
    [level], resolved to [v], and hands it to the socket when [applies]. *)
Definition block_events (enabled applies : bool) (level option : Z)
    (os_lvl : os_level) (optname : os_optname) (v : Z) : list event :=
  if enabled then
    Getopt level option ::
    (if applies then [Setsockopt os_lvl optname v sizeof_int] else [])
  else [].

(** The events of a complete run on platform [pf] for an endpoint that
    resolves its options to [r]. *)
Definition expected_trace `{nn_consts} (pf : platform) (r : resolved)
    : list event :=
  block_events true true
    NN_SOL_SOCKET NN_SNDBUF SOL_SOCKET SO_SNDBUF (r_sndbuf r) ++
  block_events true true
    NN_SOL_SOCKET NN_RCVBUF SOL_SOCKET SO_RCVBUF (r_rcvbuf r) ++
  block_events (defined_SO_KEEPALIVE pf) true
    NN_SOL_SOCKET NN_KEEPALIVE SOL_SOCKET SO_KEEPALIVE (r_keepalive r) ++
  block_events (defined_TCP_NODELAY pf) true
    NN_TCP NN_TCP_NODELAY IPPROTO_TCP TCP_NODELAY (r_nodelay r) ++
  block_events (defined_TCP_KEEPIDLE pf) (0 <=? r_keepidle r)
    NN_TCP NN_TCP_KEEPIDLE IPPROTO_TCP TCP_KEEPIDLE (r_keepidle r) ++
  block_events (defined_TCP_KEEPINTVL pf) (0 <=? r_keepintvl r)
    NN_TCP NN_TCP_KEEPINTVL IPPROTO_TCP TCP_KEEPINTVL (r_keepintvl r) ++
  block_events (defined_TCP_KEEPCNT pf) (0 <=? r_keepcnt r)
    NN_TCP NN_TCP_KEEPCNT IPPROTO_TCP TCP_KEEPCNT (r_keepcnt r).

(** The option names set by a complete run, in order. *)
Definition expected_names (pf : platform) (r : resolved) : list os_optname :=
  [SO_SNDBUF; SO_RCVBUF] ++
  (if defined_SO_KEEPALIVE pf then [SO_KEEPALIVE] else []) ++
  (if defined_TCP_NODELAY pf then [TCP_NODELAY] else []) ++
  (if defined_TCP_KEEPIDLE pf && (0 <=? r_keepidle r)
   then [TCP_KEEPIDLE] else []) ++
  (if defined_TCP_KEEPINTVL pf && (0 <=? r_keepintvl r)
   then [TCP_KEEPINTVL] else []) ++
  (if defined_TCP_KEEPCNT pf && (0 <=? r_keepcnt r)
   then [TCP_KEEPCNT] else []).

(* ================================================================= *)
(** ** The values an option set can hold *)

(** The domain of the four fields: [nodelay] is 0 or 1, the keep-alive
    tunings are -1 (not set) or positive, all within an [int]. *)
Definition optset_valid (o : nn_tcp_optset_t) : Prop :=
  (nodelay o = 0 \/ nodelay o = 1) /\
  (keepidle o = -1 \/ 0 < keepidle o <= INT_MAX) /\
  (keepintvl o = -1 \/ 0 < keepintvl o <= INT_MAX) /\
  (keepcnt o = -1 \/ 0 < keepcnt o <= INT_MAX).

(* ================================================================= *)
(** ** Concrete instances, used to run the definitions *)

(** One admissible choice of the header constants. *)
Definition sample_consts : nn_consts :=
  {| NN_SOL_SOCKET := 0;
     NN_SNDBUF := 2;
     NN_RCVBUF := 3;
     NN_KEEPALIVE := 17;
     NN_TCP := -3;
     NN_TCP_NODELAY := 1;
     NN_TCP_KEEPIDLE := 2;
     NN_TCP_KEEPINTVL := 3;
     NN_TCP_KEEPCNT := 4 |}.

(** A platform with every knob, and one without [TCP_KEEPIDLE], and one
    without [SO_KEEPALIVE]. *)
Definition all_knobs : platform := mk_platform true true true true true.
Definition no_keepidle : platform := mk_platform true true false true true.
Definition no_keepalive : platform := mk_platform false true true true true.

(** An endpoint given by the table of its resolved values; reading it always
    stores the value and the size of an [int]. *)
Definition table : Type := Z -> Z -> Z.

Definition table_getopt (source : table) (level option : Z) (val : Z)
    (sz : size_t) : Z * size_t :=
  (source level option, sizeof_int).

(** The endpoint that resolves its options to [r], under [sample_consts]. *)
Definition endpoint (r : resolved) : table :=
  fun level option =>
    if level =? 0 then
      if option =? 2 then r_sndbuf r
      else if option =? 3 then r_rcvbuf r
      else r_keepalive r
    else
      if option =? 1 then r_nodelay r
      else if option =? 2 then r_keepidle r
      else if option =? 3 then r_keepintvl r
      else r_keepcnt r.

(** An endpoint whose reads report a size other than that of an [int]. *)
Definition odd_getopt (source : table) (level option : Z) (val : Z)
    (sz : size_t) : Z * size_t :=
  (source level option, 2%N).

(* ================================================================= *)
(** ** Callers of the option set *)

(** One [setopt] call: the option, the memory pointed to and the length
    announced. *)
Record setopt_call : Set := mk_call {
  call_option : Z;
  call_optval : list byte;
  call_optvallen : size_t
}.

Section Callers.

Context `{nn_consts}.

(** The option set after the calls [calls], issued one after the other
    whatever each of them returns. *)
Definition setopt_all (optset : nn_tcp_optset_t) (calls : list setopt_call)
    : nn_tcp_optset_t :=
  fold_left
    (fun o c =>
       snd (nn_tcp_optset_setopt o (call_option c) (call_optval c)
              (call_optvallen c)))
    calls optset.

(** Read [option] into [optval] (announced capacity [c]) and set it again
    from what was read: the buffer and the size [getopt] left behind are
    handed to [setopt]. *)
Definition write_back (optset : nn_tcp_optset_t) (option : Z)
    (optval : list byte) (c : size_t) : rc * nn_tcp_optset_t :=
  let '(_, buf, sz) := nn_tcp_optset_getopt optset option optval c in
  nn_tcp_optset_setopt optset option buf sz.

End Callers.

(* ================================================================= *)
(** ** Shapes of a run *)

(** The level each operating-system option belongs to. *)
Definition level_of (optname : os_optname) : os_level :=
  match optname with
  | SO_SNDBUF | SO_RCVBUF | SO_KEEPALIVE => SOL_SOCKET
  | TCP_NODELAY | TCP_KEEPIDLE | TCP_KEEPINTVL | TCP_KEEPCNT => IPPROTO_TCP
  end.

(** A [setsockopt] call that names an option at its own level and passes
    the size of an [int]. *)
Definition call_ok (e : event) : Prop :=
  match e with
  | Setsockopt level optname _ optlen =>
      level = level_of optname /\ optlen = sizeof_int
  | Getopt _ _ => True
  end.


(** [t] runs through the blocks [bs] in order; of each block [(r, a)] it
    has nothing, or the read [r] alone, or [r] directly followed by the
    call [a]. *)
Inductive Blocks : list step -> list (step * step) -> Prop :=
| Blocks_nil : Blocks [] []
| Blocks_skip (b : step * step) (bs : list (step * step)) (t : list step) :
    Blocks t bs -> Blocks t (b :: bs)
| Blocks_read (r a : step) (bs : list (step * step)) (t : list step) :
    Blocks t bs -> Blocks (r :: t) ((r, a) :: bs)
| Blocks_both (r a : step) (bs : list (step * step)) (t : list step) :
    Blocks t bs -> Blocks (r :: a :: t) ((r, a) :: bs).

(** The seven blocks of [nn_tcp_set_options]: what is read and what is
    called with it. *)
Definition canonical_blocks `{nn_consts} : list (step * step) :=
  [ (Read NN_SOL_SOCKET NN_SNDBUF,     Apply SOL_SOCKET SO_SNDBUF);
    (Read NN_SOL_SOCKET NN_RCVBUF,     Apply SOL_SOCKET SO_RCVBUF);
    (Read NN_SOL_SOCKET NN_KEEPALIVE,  Apply SOL_SOCKET SO_KEEPALIVE);
    (Read NN_TCP NN_TCP_NODELAY,       Apply IPPROTO_TCP TCP_NODELAY);
    (Read NN_TCP NN_TCP_KEEPIDLE,      Apply IPPROTO_TCP TCP_KEEPIDLE);
    (Read NN_TCP NN_TCP_KEEPINTVL,     Apply IPPROTO_TCP TCP_KEEPINTVL);
    (Read NN_TCP NN_TCP_KEEPCNT,       Apply IPPROTO_TCP TCP_KEEPCNT) ].

(** The reads of [source] fail without a trace: they leave [val] and [sz]
    as they were. *)
Definition leaves_untouched {epbase : Type}
    (nn_epbase_getopt : epbase -> Z -> Z -> Z -> size_t -> Z * size_t)
    (source : epbase) : Prop :=
  forall level option val sz,
    nn_epbase_getopt source level option val sz = (val, sz).

(** An endpoint every read of which fails in that way. *)
Definition stale_getopt (source : unit) (level option : Z) (val : Z)
    (sz : size_t) : Z * size_t :=
  (val, sz).

(** The values an endpoint resolves to when its TCP options are those of the
    option set [o]. *)
Definition resolved_from (sndbuf rcvbuf keepalive : Z) (o : nn_tcp_optset_t)
    : resolved :=
  mk_resolved sndbuf rcvbuf keepalive
    (nodelay o) (keepidle o) (keepintvl o) (keepcnt o).

(* ================================================================= *)
(** * Properties *)

(** ** Object representation of an [int] *)

Lemma Z_of_byte_range (b : byte) : 0 <= Z_of_byte b < 256.
Proof.
  unfold Z_of_byte. pose proof (Byte.to_N_bounded b). lia.
Qed.

Lemma Z_of_byte_of_Z (z : Z) : Z_of_byte (byte_of_Z z) = z mod 256.
Proof.
  unfold Z_of_byte, byte_of_Z.
  pose proof (Z.mod_pos_bound z 256 ltac:(lia)) as Hz.
  destruct (Byte.of_N (Z.to_N (z mod 256))) as [b|] eqn:E.
  - apply Byte.to_of_N in E. rewrite E. lia.
  - apply Byte.of_N_None_iff in E. lia.
Qed.

Lemma byte_of_Z_of_byte (b : byte) : byte_of_Z (Z_of_byte b) = b.
Proof.
  unfold byte_of_Z, Z_of_byte.
  pose proof (Byte.to_N_bounded b).
  rewrite Z.mod_small by lia.
  rewrite N2Z.id, Byte.of_to_N. reflexivity.
Qed.

Lemma length_le_split (n : nat) (v : Z) : length (le_split n v) = n.
Proof.
  revert v. induction n as [|n IH]; intros v; simpl; [|rewrite IH]; reflexivity.
Qed.

Lemma le_combine_le_split (n : nat) (v : Z) :
  le_combine (le_split n v) = v mod 2 ^ (8 * Z.of_nat n).
Proof.
  revert v. induction n as [|n IH]; intros v.
  - simpl. rewrite Z.mod_1_r. reflexivity.
  - cbn [le_split le_combine]. rewrite Z_of_byte_of_Z, IH.
    replace (8 * Z.of_nat (S n)) with (8 + 8 * Z.of_nat n) by lia.
    rewrite Z.pow_add_r by lia.
    change (2 ^ 8) with 256.
    rewrite Z.rem_mul_r by lia. reflexivity.
Qed.

Lemma le_combine_range (l : list byte) :
  0 <= le_combine l < 2 ^ (8 * Z.of_nat (length l)).
Proof.
  induction l as [|b l IH].
  - simpl. lia.
  - cbn [le_combine length].
    replace (8 * Z.of_nat (S (length l))) with (8 + 8 * Z.of_nat (length l))
      by lia.
    rewrite Z.pow_add_r by lia. change (2 ^ 8) with 256.
    pose proof (Z_of_byte_range b). nia.
Qed.

Lemma byte_of_Z_add (z k : Z) : byte_of_Z (z + k * 256) = byte_of_Z z.
Proof.
  unfold byte_of_Z. rewrite Z.mod_add by lia. reflexivity.
Qed.

Lemma le_split_le_combine (l : list byte) :
  le_split (length l) (le_combine l) = l.
Proof.
  induction l as [|b l IH]; [reflexivity|].
  cbn [le_combine length le_split].
  pose proof (Z_of_byte_range b) as Hb.
  replace (Z_of_byte b + 256 * le_combine l)
    with (Z_of_byte b + le_combine l * 256) by lia.
  rewrite byte_of_Z_add, byte_of_Z_of_byte.
  rewrite Z.div_add, Z.div_small by lia.
  simpl. rewrite IH. reflexivity.
Qed.

(** The split into [n] bytes only depends on the low [8 * n] bits. *)
Lemma le_split_add (n : nat) (v k : Z) :
  le_split n (v + k * 2 ^ (8 * Z.of_nat n)) = le_split n v.
Proof.
  revert v k. induction n as [|n IH]; intros v k; [reflexivity|].
  cbn [le_split].
  replace (8 * Z.of_nat (S n)) with (8 * Z.of_nat n + 8) by lia.
  rewrite Z.pow_add_r by lia. change (2 ^ 8) with 256.
  rewrite Z.mul_assoc, byte_of_Z_add, Z.div_add by lia.
  rewrite IH. reflexivity.
Qed.

Lemma to_signed_range (u : Z) : in_int_range (to_signed u).
Proof.
  unfold in_int_range, INT_MIN, INT_MAX, to_signed.
  pose proof (Z.mod_pos_bound u (2 ^ 32) ltac:(lia)).
  destruct (Z.ltb_spec (u mod 2 ^ 32) (2 ^ 31)); lia.
Qed.

Lemma to_signed_mod (v : Z) :
  in_int_range v -> to_signed (v mod 2 ^ 32) = v.
Proof.
  unfold in_int_range, INT_MIN, INT_MAX, to_signed. intros Hv.
  rewrite Z.mod_mod by lia.
  destruct (Z_lt_le_dec v 0) as [Hneg|Hpos].
  - replace (v mod 2 ^ 32) with (v + 2 ^ 32).
    + destruct (Z.ltb_spec (v + 2 ^ 32) (2 ^ 31)); lia.
    + apply Z.mod_unique with (q := -1); lia.
  - rewrite Z.mod_small by lia.
    destruct (Z.ltb_spec v (2 ^ 31)); lia.
Qed.

Lemma length_int_to_bytes (v : Z) :
  length (int_to_bytes v) = N.to_nat sizeof_int.
Proof. apply length_le_split. Qed.

Lemma load_int_range (optval : list byte) : in_int_range (load_int optval).
Proof. apply to_signed_range. Qed.

(** Only the first [sizeof (int)] bytes of the memory are read. *)
Lemma load_int_app (bytes rest : list byte) :
  length bytes = N.to_nat sizeof_int ->
  load_int (bytes ++ rest) = load_int bytes.
Proof.
  intros Hlen. unfold load_int.
  rewrite <- Hlen, firstn_app, Nat.sub_diag, firstn_all, firstn_O, app_nil_r.
  reflexivity.
Qed.

(** Storing an [int] and loading it again gives the same [int]. *)
Lemma load_int_to_bytes (v : Z) :
  in_int_range v -> load_int (int_to_bytes v) = v.
Proof.
  intros Hv. unfold load_int.
  rewrite <- (length_int_to_bytes v), firstn_all.
  unfold int_to_bytes. rewrite le_combine_le_split.
  change (2 ^ (8 * Z.of_nat (N.to_nat sizeof_int))) with (2 ^ 32).
  apply to_signed_mod; assumption.
Qed.

(** Loading an [int] from four bytes and storing it gives the same bytes. *)
Lemma int_to_bytes_load (optval : list byte) :
  length optval = N.to_nat sizeof_int ->
  int_to_bytes (load_int optval) = optval.
Proof.
  intros Hlen. unfold load_int, int_to_bytes.
  pose proof (le_combine_range optval) as Hr.
  rewrite <- Hlen, firstn_all.
  assert (Hpow : 2 ^ (8 * Z.of_nat (length optval)) = 2 ^ 32)
    by (rewrite Hlen; reflexivity).
  unfold to_signed. rewrite Z.mod_small by lia.
  destruct (Z.ltb_spec (le_combine optval) (2 ^ 31)).
  - apply le_split_le_combine.
  - replace (le_combine optval - 2 ^ 32)
      with (le_combine optval + (-1) * 2 ^ (8 * Z.of_nat (length optval)))
      by lia.
    rewrite le_split_add. apply le_split_le_combine.
Qed.

(* ================================================================= *)
(** ** The option set *)

(** Decide every comparison of the [switch] on [option]. *)
Ltac switch_on option :=
  destruct (Z.eqb_spec option NN_TCP_NODELAY);
  destruct (Z.eqb_spec option NN_TCP_KEEPIDLE);
  destruct (Z.eqb_spec option NN_TCP_KEEPINTVL);
  destruct (Z.eqb_spec option NN_TCP_KEEPCNT).

Ltac known_cases Hk :=
  unfold known_option in Hk; simpl in Hk;
  destruct Hk as [Hk|[Hk|[Hk|[Hk|[]]]]]; subst.

Section OptionSetProperties.

Context `{nn_consts}.

Lemma labels_neq :
  case_labels_distinct ->
  NN_TCP_NODELAY <> NN_TCP_KEEPIDLE /\ NN_TCP_NODELAY <> NN_TCP_KEEPINTVL /\
  NN_TCP_NODELAY <> NN_TCP_KEEPCNT /\ NN_TCP_KEEPIDLE <> NN_TCP_KEEPINTVL /\
  NN_TCP_KEEPIDLE <> NN_TCP_KEEPCNT /\ NN_TCP_KEEPINTVL <> NN_TCP_KEEPCNT.
Proof.
  unfold case_labels_distinct. intros Hd.
  inversion Hd as [|? ? Hn1 Hd1]; subst.
  inversion Hd1 as [|? ? Hn2 Hd2]; subst.
  inversion Hd2 as [|? ? Hn3 Hd3]; subst.
  simpl in Hn1, Hn2, Hn3. intuition congruence.
Qed.

(** The field each known option reads. *)
Lemma getopt_intval_known (optset : nn_tcp_optset_t) :
  case_labels_distinct ->
  getopt_intval optset NN_TCP_NODELAY = Some (nodelay optset) /\
  getopt_intval optset NN_TCP_KEEPIDLE = Some (keepidle optset) /\
  getopt_intval optset NN_TCP_KEEPINTVL = Some (keepintvl optset) /\
  getopt_intval optset NN_TCP_KEEPCNT = Some (keepcnt optset).
Proof.
  intros Hd. destruct (labels_neq Hd) as (?&?&?&?&?&?).
  unfold getopt_intval. rewrite !Z.eqb_refl.
  repeat split; try reflexivity;
    repeat (match goal with
            | |- context [?a =? ?b] => destruct (Z.eqb_spec a b)
            end; try congruence).
Qed.

Lemma getopt_intval_some (optset : nn_tcp_optset_t) (option : Z) :
  known_option option -> exists intval, getopt_intval optset option = Some intval.
Proof.
  intros Hk. unfold getopt_intval. switch_on option; eauto.
  known_cases Hk; congruence.
Qed.

Lemma getopt_intval_none (optset : nn_tcp_optset_t) (option : Z) :
  ~ known_option option -> getopt_intval optset option = None.
Proof.
  intros Hk. unfold getopt_intval, known_option in *. simpl in Hk.
  switch_on option; subst; tauto.
Qed.

(** A read with room for a whole [int] stores the whole [int]. *)
Lemma getopt_whole (optset : nn_tcp_optset_t) (option intval : Z)
    (optval : list byte) (optvallen : size_t) :
  getopt_intval optset option = Some intval ->
  (sizeof_int <= optvallen)%N ->
  nn_tcp_optset_getopt optset option optval optvallen
  = (Success,
     int_to_bytes intval ++ skipn (N.to_nat sizeof_int) optval,
     sizeof_int).
Proof.
  intros Hi Hc. unfold nn_tcp_optset_getopt, memcpy. rewrite Hi.
  destruct (N.ltb_spec optvallen sizeof_int); [lia|].
  rewrite <- (length_int_to_bytes intval) at 1. rewrite firstn_all.
  reflexivity.
Qed.

(** What a successful [setopt] stores, option by option. *)
Lemma setopt_known (optset : nn_tcp_optset_t) (optval : list byte) :
  case_labels_distinct ->
  let val := load_int optval in
  nn_tcp_optset_setopt optset NN_TCP_NODELAY optval sizeof_int
  = (if negb (val =? 0) && negb (val =? 1) then (Neg EINVAL, optset)
     else (Success, mk_optset val (keepidle optset) (keepintvl optset)
                      (keepcnt optset))) /\
  nn_tcp_optset_setopt optset NN_TCP_KEEPIDLE optval sizeof_int
  = (if val <=? 0 then (Neg EINVAL, optset)
     else (Success, mk_optset (nodelay optset) val (keepintvl optset)
                      (keepcnt optset))) /\
  nn_tcp_optset_setopt optset NN_TCP_KEEPINTVL optval sizeof_int
  = (if val <=? 0 then (Neg EINVAL, optset)
     else (Success, mk_optset (nodelay optset) (keepidle optset) val
                      (keepcnt optset))) /\
  nn_tcp_optset_setopt optset NN_TCP_KEEPCNT optval sizeof_int
  = (if val <=? 0 then (Neg EINVAL, optset)
     else (Success, mk_optset (nodelay optset) (keepidle optset)
                      (keepintvl optset) val)).
Proof.
  intros Hd val. destruct (labels_neq Hd) as (?&?&?&?&?&?).
  unfold nn_tcp_optset_setopt. rewrite N.eqb_refl. cbn [negb].
  rewrite !Z.eqb_refl. fold val.
  repeat split; try reflexivity;
    repeat (match goal with
            | |- context [?a =? ?b] => destruct (Z.eqb_spec a b)
            end; try congruence).
Qed.

(** Every option set reached from the defaults through [setopt] holds values
    of the domain. *)
Lemma optset_valid_default : optset_valid nn_tcp_optset.
Proof.
  unfold optset_valid, nn_tcp_optset. simpl. tauto.
Qed.

Lemma optset_valid_setopt (optset : nn_tcp_optset_t) (option : Z)
    (optval : list byte) (optvallen : size_t) :
  optset_valid optset ->
  optset_valid (snd (nn_tcp_optset_setopt optset option optval optvallen)).
Proof.
  intros Hv. unfold nn_tcp_optset_setopt.
  pose proof (load_int_range optval) as Hr.
  unfold in_int_range, INT_MIN in Hr.
  set (val := load_int optval) in *.
  destruct (negb (optvallen =? sizeof_int)%N); [exact Hv|].
  destruct Hv as (Hn & Hi & Hv & Hc).
  destruct (option =? NN_TCP_NODELAY).
  { destruct (Z.eqb_spec val 0); destruct (Z.eqb_spec val 1);
      cbn [negb andb snd]; unfold optset_valid;
      cbn [nodelay keepidle keepintvl keepcnt]; auto. }
  destruct (option =? NN_TCP_KEEPIDLE).
  { destruct (Z.leb_spec val 0); cbn [snd]; unfold optset_valid;
      cbn [nodelay keepidle keepintvl keepcnt]; auto.
    repeat split; auto. right; lia. }
  destruct (option =? NN_TCP_KEEPINTVL).
  { destruct (Z.leb_spec val 0); cbn [snd]; unfold optset_valid;
      cbn [nodelay keepidle keepintvl keepcnt]; auto.
    repeat split; auto. right; lia. }
  destruct (option =? NN_TCP_KEEPCNT).
  { destruct (Z.leb_spec val 0); cbn [snd]; unfold optset_valid;
      cbn [nodelay keepidle keepintvl keepcnt]; auto.
    repeat split; auto. right; lia. }
  cbn [snd]. unfold optset_valid. auto.
Qed.

End OptionSetProperties.

Section OptionSetTheorems.

Context `{nn_consts}.

(** A read of the field a known option names. *)
Ltac field_read Hd :=
  match goal with
  | |- getopt_intval ?o _ = _ =>
      destruct (getopt_intval_known o Hd) as (?&?&?&?); assumption
  end.

(** C4.  For a [setopt] call whose argument has the size of an [int] and
    holds the integer [v]: on [NN_TCP_NODELAY] the call fails with [-EINVAL]
    exactly when [v] is neither 0 nor 1 (and succeeds otherwise); on each of
    [NN_TCP_KEEPIDLE], [NN_TCP_KEEPINTVL], [NN_TCP_KEEPCNT] it fails with
    [-EINVAL] exactly when [v <= 0], in particular for [v = -1], and succeeds
    for every positive [v]. *)
Theorem setopt_domain_check (optset : nn_tcp_optset_t) (optval : list byte)
    (v : Z) :
  case_labels_distinct ->
  load_int optval = v ->
  (fst (nn_tcp_optset_setopt optset NN_TCP_NODELAY optval sizeof_int)
     = Neg EINVAL <-> v <> 0 /\ v <> 1) /\
  (v = 0 \/ v = 1 ->
   fst (nn_tcp_optset_setopt optset NN_TCP_NODELAY optval sizeof_int)
     = Success) /\
  (forall option, In option tunings ->
     (fst (nn_tcp_optset_setopt optset option optval sizeof_int) = Neg EINVAL
        <-> v <= 0) /\
     (v = -1 ->
      fst (nn_tcp_optset_setopt optset option optval sizeof_int) = Neg EINVAL) /\
     (0 < v ->
      fst (nn_tcp_optset_setopt optset option optval sizeof_int) = Success)).
Proof.
  intros Hd Hv.
  destruct (setopt_known optset optval Hd) as (En & Ei & Ev & Ec).
  rewrite Hv in En, Ei, Ev, Ec.
  split; [|split].
  - rewrite En.
    destruct (Z.eqb_spec v 0); destruct (Z.eqb_spec v 1); cbn [negb andb fst];
      split; intros; try discriminate; try lia; reflexivity.
  - intros Hb. rewrite En.
    destruct (Z.eqb_spec v 0); destruct (Z.eqb_spec v 1); cbn [negb andb fst];
      try reflexivity; lia.
  - intros option Hin. unfold tunings in Hin. simpl in Hin.
    destruct Hin as [<-|[<-|[<-|[]]]];
      rewrite ?Ei, ?Ev, ?Ec;
      destruct (Z.leb_spec v 0); cbn [fst];
      (split; [split; intros; try discriminate; try lia; reflexivity|]);
      (split; intros; try reflexivity; try lia).
Qed.

(** C5.  Whatever the option identifier, known or not, a [setopt] call whose
    argument does not have the size of an [int] fails with [-EINVAL] (so not
    with [-ENOPROTOOPT]) and leaves the option set as it was. *)
Theorem setopt_wrong_length (optset : nn_tcp_optset_t) (option : Z)
    (optval : list byte) (optvallen : size_t) :
  optvallen <> sizeof_int ->
  nn_tcp_optset_setopt optset option optval optvallen = (Neg EINVAL, optset) /\
  fst (nn_tcp_optset_setopt optset option optval optvallen) <> Neg ENOPROTOOPT.
Proof.
  intros Hlen. unfold nn_tcp_optset_setopt.
  destruct (N.eqb_spec optvallen sizeof_int); [contradiction|].
  cbn [negb fst]. split; [reflexivity|discriminate].
Qed.

(** C6.  For a known option and any announced capacity [c], [getopt]
    succeeds, replaces the first [min c (sizeof (int))] bytes of the
    destination by the first bytes of the stored value, leaves the rest of
    the destination alone, and reports [sizeof (int)] as the size, also when
    [c] is smaller. *)
Theorem getopt_truncated_copy (optset : nn_tcp_optset_t) (option : Z)
    (optval : list byte) (c : size_t) :
  case_labels_distinct ->
  known_option option ->
  exists intval,
    stored optset option intval /\
    let n := N.to_nat (N.min c sizeof_int) in
    nn_tcp_optset_getopt optset option optval c
    = (Success, firstn n (int_to_bytes intval) ++ skipn n optval, sizeof_int) /\
    length (firstn n (int_to_bytes intval)) = n.
Proof.
  intros Hd Hk.
  destruct (getopt_intval_known optset Hd) as (En & Ei & Ev & Ec).
  assert (Hcopy : forall intval,
    getopt_intval optset option = Some intval ->
    let n := N.to_nat (N.min c sizeof_int) in
    nn_tcp_optset_getopt optset option optval c
    = (Success, firstn n (int_to_bytes intval) ++ skipn n optval, sizeof_int) /\
    length (firstn n (int_to_bytes intval)) = n).
  { intros intval Hi n. unfold nn_tcp_optset_getopt, memcpy. rewrite Hi.
    assert (Hn : (if (c <? sizeof_int)%N then c else sizeof_int)
                 = N.min c sizeof_int).
    { destruct (N.ltb_spec c sizeof_int); lia. }
    rewrite Hn. fold n. split; [reflexivity|].
    rewrite length_firstn, length_int_to_bytes. subst n. lia. }
  unfold stored.
  known_cases Hk;
    [exists (nodelay optset) | exists (keepidle optset)
    |exists (keepintvl optset) | exists (keepcnt optset)];
    (split; [tauto | apply Hcopy; assumption]).
Qed.

(** C7.  With a destination of at least [sizeof (int)] bytes: setting
    [NN_TCP_NODELAY] to 0 or 1 and reading it back returns the value set; the
    same holds for each keep-alive tuning option and every positive [int]. *)
Theorem setopt_getopt_round_trip (optset : nn_tcp_optset_t) (v : Z)
    (optval : list byte) (c : size_t) :
  case_labels_distinct ->
  (sizeof_int <= c)%N ->
  (v = 0 \/ v = 1 -> round_trip optset NN_TCP_NODELAY v optval c) /\
  (0 < v <= INT_MAX ->
   forall option, In option tunings -> round_trip optset option v optval c).
Proof.
  intros Hd Hc.
  assert (Hback : forall optset' option,
    in_int_range v ->
    getopt_intval optset' option = Some v ->
    let '(r', buf, sz) := nn_tcp_optset_getopt optset' option optval c in
    Success = Success /\ r' = Success /\ sz = sizeof_int /\
    firstn (N.to_nat sizeof_int) buf = int_to_bytes v /\ load_int buf = v).
  { intros optset' option Hr Hi.
    rewrite (getopt_whole _ _ _ optval c Hi Hc).
    split; [reflexivity|]. split; [reflexivity|]. split; [reflexivity|].
    split.
    - rewrite <- (length_int_to_bytes v) at 1.
      rewrite firstn_app, Nat.sub_diag, firstn_all, firstn_O, app_nil_r.
      reflexivity.
    - rewrite load_int_app by apply length_int_to_bytes.
      apply load_int_to_bytes; assumption. }
  destruct (setopt_known optset (int_to_bytes v) Hd) as (En & Ei & Ev & Ec).
  unfold round_trip. split.
  - intros Hb.
    assert (Hr : in_int_range v)
      by (unfold in_int_range, INT_MIN, INT_MAX; lia).
    rewrite En, (load_int_to_bytes v Hr).
    destruct (Z.eqb_spec v 0); destruct (Z.eqb_spec v 1); cbn [negb andb];
      try lia; apply Hback; try assumption; field_read Hd.
  - intros Hpos option Hin.
    assert (Hr : in_int_range v)
      by (unfold in_int_range, INT_MIN, INT_MAX in *; lia).
    unfold tunings in Hin. simpl in Hin.
    destruct Hin as [<-|[<-|[<-|[]]]];
      rewrite ?Ei, ?Ev, ?Ec, (load_int_to_bytes v Hr);
      (destruct (Z.leb_spec v 0); [lia|]);
      apply Hback; try assumption; field_read Hd.
Qed.

(** C8.  For an option identifier that is none of the four known ones,
    [getopt] fails with [-ENOPROTOOPT] (touching neither the destination nor
    the size), and [setopt] with an argument of the size of an [int] fails
    with [-ENOPROTOOPT]. *)
Theorem unknown_option_unsupported (optset : nn_tcp_optset_t) (option : Z)
    (optval : list byte) (optvallen : size_t) :
  ~ known_option option ->
  nn_tcp_optset_getopt optset option optval optvallen
  = (Neg ENOPROTOOPT, optval, optvallen) /\
  nn_tcp_optset_setopt optset option optval sizeof_int
  = (Neg ENOPROTOOPT, optset).
Proof.
  intros Hk. split.
  - unfold nn_tcp_optset_getopt.
    rewrite (getopt_intval_none optset option Hk). reflexivity.
  - unfold nn_tcp_optset_setopt, known_option in *. simpl in Hk.
    rewrite N.eqb_refl. cbn [negb].
    switch_on option; subst; tauto.
Qed.

(** C9.  The option set [nn_tcp_optset ()] returns holds [nodelay = 0] and
    [keepidle = keepintvl = keepcnt = -1], and [getopt] on it, with a
    destination of at least [sizeof (int)] bytes, succeeds and reports these
    values. *)
Theorem fresh_optset_defaults (optval : list byte) (c : size_t) :
  case_labels_distinct ->
  (sizeof_int <= c)%N ->
  nn_tcp_optset = mk_optset 0 (-1) (-1) (-1) /\
  forall option expected,
    In (option, expected)
       [(NN_TCP_NODELAY, 0); (NN_TCP_KEEPIDLE, -1);
        (NN_TCP_KEEPINTVL, -1); (NN_TCP_KEEPCNT, -1)] ->
    exists buf,
      nn_tcp_optset_getopt nn_tcp_optset option optval c
      = (Success, buf, sizeof_int) /\
      firstn (N.to_nat sizeof_int) buf = int_to_bytes expected /\
      load_int buf = expected.
Proof.
  intros Hd Hc. split; [reflexivity|].
  intros option expected Hin.
  assert (Hi : getopt_intval nn_tcp_optset option = Some expected).
  { destruct (getopt_intval_known nn_tcp_optset Hd) as (En & Ei & Ev & Ec).
    simpl in Hin.
    destruct Hin as [E|[E|[E|[E|[]]]]]; inversion E; subst; assumption. }
  assert (Hr : in_int_range expected).
  { simpl in Hin. unfold in_int_range, INT_MIN, INT_MAX.
    destruct Hin as [E|[E|[E|[E|[]]]]]; inversion E; subst; lia. }
  exists (int_to_bytes expected ++ skipn (N.to_nat sizeof_int) optval).
  split; [apply getopt_whole; assumption|]. split.
  - rewrite <- (length_int_to_bytes expected) at 1.
    rewrite firstn_app, Nat.sub_diag, firstn_all, firstn_O, app_nil_r.
    reflexivity.
  - rewrite load_int_app by apply length_int_to_bytes.
    apply load_int_to_bytes; assumption.
Qed.

(** C10.  A [setopt] call that returns an error leaves the four fields as
    they were; a successful one stores the integer passed and changes no
    field other than the one its option names. *)
Theorem setopt_frame (optset : nn_tcp_optset_t) (option : Z)
    (optval : list byte) (optvallen : size_t) :
  let r := nn_tcp_optset_setopt optset option optval optvallen in
  (forall e, fst r = Neg e -> snd r = optset) /\
  (fst r = Success ->
   stored (snd r) option (load_int optval) /\
   (option <> NN_TCP_NODELAY -> nodelay (snd r) = nodelay optset) /\
   (option <> NN_TCP_KEEPIDLE -> keepidle (snd r) = keepidle optset) /\
   (option <> NN_TCP_KEEPINTVL -> keepintvl (snd r) = keepintvl optset) /\
   (option <> NN_TCP_KEEPCNT -> keepcnt (snd r) = keepcnt optset)).
Proof.
  unfold nn_tcp_optset_setopt, stored.
  destruct (negb (optvallen =? sizeof_int)%N);
    [cbn [fst snd]; split; [reflexivity|discriminate]|].
  destruct (negb (load_int optval =? 0) && negb (load_int optval =? 1));
    destruct (load_int optval <=? 0);
    switch_on option;
    cbn [fst snd nodelay keepidle keepintvl keepcnt];
    (split; [intros; try discriminate; reflexivity|]);
    intros; try discriminate; subst; tauto.
Qed.

End OptionSetTheorems.

(* ================================================================= *)
(** ** Subsequences *)

Section SubseqFacts.

Context {A : Type}.

Lemma Subseq_nil_l (l : list A) : Subseq [] l.
Proof. induction l; constructor; assumption. Qed.

Lemma Subseq_refl (l : list A) : Subseq l l.
Proof. induction l; constructor; assumption. Qed.

Lemma Subseq_app (l1 l2 l1' l2' : list A) :
  Subseq l1 l1' -> Subseq l2 l2' -> Subseq (l1 ++ l2) (l1' ++ l2').
Proof.
  intros H1 H2. induction H1; simpl; try constructor; assumption.
Qed.

Lemma Subseq_length (l l' : list A) :
  Subseq l l' -> (length l <= length l')%nat.
Proof. intros Hs. induction Hs; simpl; lia. Qed.

End SubseqFacts.

Lemma Subseq_flat_map {A B : Type} (f : A -> list B) (l l' : list A) :
  Subseq l l' -> Subseq (flat_map f l) (flat_map f l').
Proof.
  intros Hs. induction Hs; simpl.
  - constructor.
  - change (flat_map f l1) with ([] ++ flat_map f l1).
    apply Subseq_app; [apply Subseq_nil_l | assumption].
  - apply Subseq_app; [apply Subseq_refl | assumption].
Qed.

(* ================================================================= *)
(** ** Traces of the monad *)

Lemma trace_bind {A B : Type} (m : M A) (k : A -> M B) :
  trace (bind m k)
  = trace m ++ match result m with
               | Some a => trace (k a)
               | None => []
               end.
Proof.
  destruct m as [[a|] t]; unfold bind, trace, result; simpl.
  - destruct (k a); reflexivity.
  - rewrite app_nil_r. reflexivity.
Qed.

(** If [m] stays within the first [n] steps of [l] and its continuation
    within the others, so does their sequence. *)
Lemma Subseq_bind {A B : Type} (n : nat) (l : list step) (m : M A)
    (k : A -> M B) :
  Subseq (steps m) (firstn n l) ->
  (forall a, Subseq (steps (k a)) (skipn n l)) ->
  Subseq (steps (bind m k)) l.
Proof.
  intros Hm Hk. unfold steps in *.
  rewrite trace_bind, map_app, <- (firstn_skipn n l).
  apply Subseq_app; [assumption|].
  destruct (result m); [apply Hk | apply Subseq_nil_l].
Qed.

Lemma applied_names_steps (t : list event) :
  applied_names t
  = flat_map (fun s => match s with
                       | Apply _ optname => [optname]
                       | Read _ _ => []
                       end) (map step_of t).
Proof.
  unfold applied_names. induction t as [|e t IH]; [reflexivity|].
  simpl. rewrite IH. destruct e; reflexivity.
Qed.

(* ================================================================= *)
(** ** Applying the options *)

(** Split the bound on a sequence after its first [n] steps. *)
Ltac seq_steps n :=
  apply (Subseq_bind n); [cbn [firstn] | intros; cbn [skipn]].

(** Name the two results of a read. *)
Ltac read_pair :=
  match goal with a : (Z * size_t)%type |- _ => destruct a as [? ?] end.

(** Close a bound on the steps of a single action. *)
Ltac one_step :=
  cbv [steps trace snd map step_of app
       epbase_getopt nn_assert nn_usock_setsockopt bind emit ret];
  solve [ apply Subseq_refl
        | apply Subseq_nil_l
        | match goal with
          | |- context [if ?b then _ else _] =>
              destruct b; first [apply Subseq_refl | apply Subseq_nil_l]
          end ].

Section SetOptionsProperties.

Context `{nn_consts} {epbase : Type}.
Variable nn_epbase_getopt : epbase -> Z -> Z -> Z -> size_t -> Z * size_t.

(** One conditionally compiled block: a read, the assertion on the size,
    and at most one call. *)
Ltac block :=
  match goal with
  | |- context [if ?b then _ else _] =>
      destruct b; [|apply Subseq_nil_l]
  end;
  seq_steps 1%nat; [one_step|]; read_pair;
  seq_steps 0%nat; [one_step|];
  seq_steps 1%nat; one_step.

(** Whatever the platform and the endpoint, the reads and the [setsockopt]
    calls of a run follow the order of the source text. *)
Lemma set_options_steps_ordered (pf : platform) (source : epbase) (val : Z) :
  Subseq (steps (nn_tcp_set_options nn_epbase_getopt pf source val))
         canonical_order.
Proof.
  unfold nn_tcp_set_options, canonical_order.
  seq_steps 1%nat; [one_step|]. read_pair.
  seq_steps 0%nat; [one_step|].
  seq_steps 1%nat; [one_step|].
  seq_steps 1%nat; [one_step|]. read_pair.
  seq_steps 0%nat; [one_step|].
  seq_steps 1%nat; [one_step|].
  seq_steps 2%nat; [block|].
  seq_steps 2%nat; [block|].
  seq_steps 2%nat; [block|].
  seq_steps 2%nat; [block|].
  seq_steps 2%nat; [block|].
  one_step.
Qed.

(** For an endpoint that resolves every option, the run completes and its
    events are those of [expected_trace]. *)
Lemma set_options_trace (pf : platform) (source : epbase) (val : Z)
    (r : resolved) :
  resolves_to nn_epbase_getopt source r ->
  nn_tcp_set_options nn_epbase_getopt pf source val
  = (Some tt, expected_trace pf r).
Proof.
  intros (Hsnd & Hrcv & Hka & Hnd & Hki & Hkv & Hkc).
  unfold resolves in *.
  destruct pf as [ka nd ki kv kc]. destruct r as [vs vr va vn vi vv vc].
  unfold nn_tcp_set_options, expected_trace, block_events, epbase_getopt.
  cbn [defined_SO_KEEPALIVE defined_TCP_NODELAY defined_TCP_KEEPIDLE
       defined_TCP_KEEPINTVL defined_TCP_KEEPCNT
       r_sndbuf r_rcvbuf r_keepalive r_nodelay r_keepidle r_keepintvl
       r_keepcnt] in *.
  destruct ka, nd, ki, kv, kc; cbn;
    repeat (first [ rewrite Hsnd | rewrite Hrcv | rewrite Hka | rewrite Hnd
                  | rewrite Hki | rewrite Hkv | rewrite Hkc
                  | rewrite Z.geb_leb
                  | match goal with
                    | |- context [0 <=? ?v] => destruct (0 <=? v)
                    end ]; cbn);
    reflexivity.
Qed.

Lemma applied_names_expected (pf : platform) (r : resolved) :
  applied_names (expected_trace pf r) = expected_names pf r.
Proof.
  destruct pf as [ka nd ki kv kc].
  unfold expected_trace, expected_names, block_events.
  cbn [defined_SO_KEEPALIVE defined_TCP_NODELAY defined_TCP_KEEPIDLE
       defined_TCP_KEEPINTVL defined_TCP_KEEPCNT].
  destruct ka, nd, ki, kv, kc;
    destruct (0 <=? r_keepidle r);
    destruct (0 <=? r_keepintvl r);
    destruct (0 <=? r_keepcnt r); reflexivity.
Qed.

(** The calls of a complete run that set [optname]: the one call of the block
    of [optname] when that block applies its value, none otherwise. *)
Lemma calls_for_expected (pf : platform) (r : resolved) :
  calls_for TCP_KEEPIDLE (expected_trace pf r)
  = (if defined_TCP_KEEPIDLE pf && (0 <=? r_keepidle r)
     then [Setsockopt IPPROTO_TCP TCP_KEEPIDLE (r_keepidle r) sizeof_int]
     else []) /\
  calls_for TCP_KEEPINTVL (expected_trace pf r)
  = (if defined_TCP_KEEPINTVL pf && (0 <=? r_keepintvl r)
     then [Setsockopt IPPROTO_TCP TCP_KEEPINTVL (r_keepintvl r) sizeof_int]
     else []) /\
  calls_for TCP_KEEPCNT (expected_trace pf r)
  = (if defined_TCP_KEEPCNT pf && (0 <=? r_keepcnt r)
     then [Setsockopt IPPROTO_TCP TCP_KEEPCNT (r_keepcnt r) sizeof_int]
     else []).
Proof.
  destruct pf as [ka nd ki kv kc].
  unfold expected_trace, block_events.
  cbn [defined_SO_KEEPALIVE defined_TCP_NODELAY defined_TCP_KEEPIDLE
       defined_TCP_KEEPINTVL defined_TCP_KEEPCNT].
  destruct ka, nd, ki, kv, kc;
    destruct (0 <=? r_keepidle r);
    destruct (0 <=? r_keepintvl r);
    destruct (0 <=? r_keepcnt r); repeat split; reflexivity.
Qed.

Lemma In_optional (n x : os_optname) (b : bool) :
  In x (if b then [n] else []) <-> b = true /\ n = x.
Proof.
  destruct b; simpl; intuition discriminate.
Qed.

(** Membership in the names of a complete run, knob by knob. *)
Lemma issued_expected (pf : platform) (r : resolved) :
  (In TCP_KEEPIDLE (expected_names pf r)
   <-> defined_TCP_KEEPIDLE pf = true /\ 0 <= r_keepidle r) /\
  (In TCP_KEEPINTVL (expected_names pf r)
   <-> defined_TCP_KEEPINTVL pf = true /\ 0 <= r_keepintvl r) /\
  (In TCP_KEEPCNT (expected_names pf r)
   <-> defined_TCP_KEEPCNT pf = true /\ 0 <= r_keepcnt r).
Proof.
  unfold expected_names.
  repeat rewrite in_app_iff; repeat rewrite In_optional;
    repeat rewrite andb_true_iff; repeat rewrite Z.leb_le; cbn [In].
  intuition discriminate.
Qed.

(** C1.  Whatever the platform and the endpoint, the reads and the
    [setsockopt] calls of [nn_tcp_set_options] occur in the order: send
    buffer, receive buffer, keep-alive flag, no-delay, keep-idle,
    keep-interval, keep-count, each option being read just before it is
    applied, and none twice.  When the endpoint resolves every option the run
    completes with the two buffer sizes always applied, the keep-alive flag
    and no-delay applied when the platform has the knob, and the three
    tunings after them. *)
Theorem set_options_order (pf : platform) (source : epbase) (val : Z) :
  let m := nn_tcp_set_options nn_epbase_getopt pf source val in
  Subseq (steps m) canonical_order /\
  Subseq (applied_names (trace m)) canonical_names /\
  (forall r, resolves_to nn_epbase_getopt source r ->
     result m = Some tt /\
     trace m = expected_trace pf r /\
     applied_names (trace m) = expected_names pf r).
Proof.
  intros m.
  pose proof (set_options_steps_ordered pf source val) as Hs. fold m in Hs.
  split; [exact Hs|]. split.
  - rewrite applied_names_steps.
    apply (Subseq_flat_map
             (fun s => match s with
                       | Apply _ optname => [optname]
                       | Read _ _ => []
                       end)) in Hs.
    exact Hs.
  - intros r Hr. subst m. rewrite (set_options_trace pf source val r Hr).
    cbn [result trace fst snd].
    split; [reflexivity|]. split; [reflexivity|].
    apply applied_names_expected.
Qed.

(** The guard [val >= 0] of the three tuning blocks, for an endpoint that
    resolves every option: the call for a tuning is issued exactly when the
    platform has the knob and the resolved value is not negative, and then it
    is the one call carrying that value. *)
Lemma tunings_applied_iff_nonnegative (pf : platform) (source : epbase)
    (val : Z) (r : resolved) :
  resolves_to nn_epbase_getopt source r ->
  let m := nn_tcp_set_options nn_epbase_getopt pf source val in
  result m = Some tt /\
  (issued TCP_KEEPIDLE (trace m)
   <-> defined_TCP_KEEPIDLE pf = true /\ 0 <= r_keepidle r) /\
  (issued TCP_KEEPINTVL (trace m)
   <-> defined_TCP_KEEPINTVL pf = true /\ 0 <= r_keepintvl r) /\
  (issued TCP_KEEPCNT (trace m)
   <-> defined_TCP_KEEPCNT pf = true /\ 0 <= r_keepcnt r) /\
  calls_for TCP_KEEPIDLE (trace m)
  = (if defined_TCP_KEEPIDLE pf && (0 <=? r_keepidle r)
     then [Setsockopt IPPROTO_TCP TCP_KEEPIDLE (r_keepidle r) sizeof_int]
     else []) /\
  calls_for TCP_KEEPINTVL (trace m)
  = (if defined_TCP_KEEPINTVL pf && (0 <=? r_keepintvl r)
     then [Setsockopt IPPROTO_TCP TCP_KEEPINTVL (r_keepintvl r) sizeof_int]
     else []) /\
  calls_for TCP_KEEPCNT (trace m)
  = (if defined_TCP_KEEPCNT pf && (0 <=? r_keepcnt r)
     then [Setsockopt IPPROTO_TCP TCP_KEEPCNT (r_keepcnt r) sizeof_int]
     else []) /\
  (forall v, v = -1 \/ 0 < v -> (0 <= v <-> v <> -1)).
Proof.
  intros Hr m. subst m. rewrite (set_options_trace pf source val r Hr).
  cbn [result trace fst snd]. unfold issued.
  rewrite applied_names_expected.
  destruct (issued_expected pf r) as (Hi & Hv & Hc).
  destruct (calls_for_expected pf r) as (Ci & Cv & Cc).
  repeat (split; [first [reflexivity | assumption]|]).
  intros v Hdom. lia.
Qed.

(** C2.  For an endpoint that resolves every option, the run completes
    without error, and for each of keep-idle, keep-interval and keep-count on
    its own, its resolved value being one an option set can hold (-1 or
    positive): the [setsockopt] call for it is issued if and only if the
    platform has the knob and the resolved value is not -1, and it is then
    the one call carrying that value; otherwise that knob alone is skipped,
    whatever holds of the other two. *)
Theorem tunings_applied_iff_set (pf : platform) (source : epbase) (val : Z)
    (r : resolved) :
  resolves_to nn_epbase_getopt source r ->
  let m := nn_tcp_set_options nn_epbase_getopt pf source val in
  result m = Some tt /\
  (r_keepidle r = -1 \/ 0 < r_keepidle r ->
   (issued TCP_KEEPIDLE (trace m)
    <-> defined_TCP_KEEPIDLE pf = true /\ r_keepidle r <> -1) /\
   calls_for TCP_KEEPIDLE (trace m)
   = (if defined_TCP_KEEPIDLE pf && negb (r_keepidle r =? -1)
      then [Setsockopt IPPROTO_TCP TCP_KEEPIDLE (r_keepidle r) sizeof_int]
      else [])) /\
  (r_keepintvl r = -1 \/ 0 < r_keepintvl r ->
   (issued TCP_KEEPINTVL (trace m)
    <-> defined_TCP_KEEPINTVL pf = true /\ r_keepintvl r <> -1) /\
   calls_for TCP_KEEPINTVL (trace m)
   = (if defined_TCP_KEEPINTVL pf && negb (r_keepintvl r =? -1)
      then [Setsockopt IPPROTO_TCP TCP_KEEPINTVL (r_keepintvl r) sizeof_int]
      else [])) /\
  (r_keepcnt r = -1 \/ 0 < r_keepcnt r ->
   (issued TCP_KEEPCNT (trace m)
    <-> defined_TCP_KEEPCNT pf = true /\ r_keepcnt r <> -1) /\
   calls_for TCP_KEEPCNT (trace m)
   = (if defined_TCP_KEEPCNT pf && negb (r_keepcnt r =? -1)
      then [Setsockopt IPPROTO_TCP TCP_KEEPCNT (r_keepcnt r) sizeof_int]
      else [])).
Proof.
  intros Hr m. subst m. rewrite (set_options_trace pf source val r Hr).
  cbn [result trace fst snd]. unfold issued.
  rewrite applied_names_expected.
  destruct (issued_expected pf r) as (Hi & Hv & Hc).
  destruct (calls_for_expected pf r) as (Ci & Cv & Cc).
  assert (Hguard : forall v, v = -1 \/ 0 < v ->
            (0 <= v <-> v <> -1) /\ (0 <=? v) = negb (v =? -1)).
  { intros v Hdom. split; [lia|].
    destruct (Z.leb_spec 0 v); destruct (Z.eqb_spec v (-1));
      cbn [negb]; try reflexivity; lia. }
  split; [reflexivity|].
  split; [|split]; intros Hdom; destruct (Hguard _ Hdom) as (Hiff & Hb).
  - rewrite Hi, Ci, Hb. split; [tauto | reflexivity].
  - rewrite Hv, Cv, Hb. split; [tauto | reflexivity].
  - rewrite Hc, Cc, Hb. split; [tauto | reflexivity].
Qed.

(** C3 (amended).  For an endpoint that resolves the send buffer to 4096,
    the receive buffer to 8192, no-delay to 1 and the three tunings to -1,
    the [setsockopt] calls are: send buffer, receive buffer, the keep-alive
    flag when the platform has that knob, no-delay when the platform has that
    knob, and none for keep-idle, keep-interval and keep-count.  They are
    three (two buffers and no-delay) on a platform with the no-delay knob and
    without the keep-alive knob, and four on a platform with both. *)
Theorem example_endpoint_calls (pf : platform) (source : epbase) (val : Z)
    (keepalive : Z) :
  resolves_to nn_epbase_getopt source
    (mk_resolved 4096 8192 keepalive 1 (-1) (-1) (-1)) ->
  let m := nn_tcp_set_options nn_epbase_getopt pf source val in
  set_calls (trace m)
  = [Setsockopt SOL_SOCKET SO_SNDBUF 4096 sizeof_int;
     Setsockopt SOL_SOCKET SO_RCVBUF 8192 sizeof_int] ++
    (if defined_SO_KEEPALIVE pf
     then [Setsockopt SOL_SOCKET SO_KEEPALIVE keepalive sizeof_int] else []) ++
    (if defined_TCP_NODELAY pf
     then [Setsockopt IPPROTO_TCP TCP_NODELAY 1 sizeof_int] else []) /\
  calls_for TCP_KEEPIDLE (trace m) = [] /\
  calls_for TCP_KEEPINTVL (trace m) = [] /\
  calls_for TCP_KEEPCNT (trace m) = [] /\
  (defined_TCP_NODELAY pf = true ->
   length (set_calls (trace m))
   = if defined_SO_KEEPALIVE pf then 4%nat else 3%nat).
Proof.
  intros Hr m. subst m. rewrite (set_options_trace pf source val _ Hr).
  cbn [result trace fst snd].
  destruct pf as [ka nd ki kv kc].
  unfold expected_trace, block_events.
  cbn [defined_SO_KEEPALIVE defined_TCP_NODELAY defined_TCP_KEEPIDLE
       defined_TCP_KEEPINTVL defined_TCP_KEEPCNT
       r_sndbuf r_rcvbuf r_keepalive r_nodelay r_keepidle r_keepintvl
       r_keepcnt].
  change (0 <=? -1) with false.
  destruct ka, nd, ki, kv, kc; repeat split; intros;
    try discriminate; reflexivity.
Qed.

End SetOptionsProperties.

(* ================================================================= *)
(** ** The properties on concrete inputs *)

Lemma sample_consts_distinct : case_labels_distinct (H := sample_consts).
Proof.
  unfold case_labels_distinct. cbn.
  repeat constructor; cbn; intuition discriminate.
Qed.

Lemma endpoint_resolves (r : resolved) :
  resolves_to (H := sample_consts) table_getopt (endpoint r) r.
Proof.
  unfold resolves_to, resolves. repeat split.
Qed.

(** A failed assertion on the size stops the run before anything is set. *)
Example odd_size_stops :
  nn_tcp_set_options (H := sample_consts) odd_getopt all_knobs
    (endpoint (mk_resolved 4096 8192 1 1 30 5 3)) 0
  = (None, [Getopt 0 2]).
Proof. reflexivity. Qed.

(** A destination of two bytes receives the two low bytes of 300. *)
Example getopt_two_bytes :
  nn_tcp_optset_getopt (H := sample_consts) (mk_optset 1 300 (-1) (-1)) 2
    [xff; xff; xff; xff; xff] 2%N
  = (Success, [x2c; x01; xff; xff; xff], 4%N).
Proof. vm_compute. reflexivity. Qed.

Lemma set_options_order_witness :
  let r := mk_resolved 4096 8192 1 1 30 (-1) 3 in
  let m := nn_tcp_set_options (H := sample_consts) table_getopt all_knobs
             (endpoint r) 0 in
  Subseq (steps m) (canonical_order (H := sample_consts)) /\
  trace m
  = [Getopt 0 2; Setsockopt SOL_SOCKET SO_SNDBUF 4096 4%N;
     Getopt 0 3; Setsockopt SOL_SOCKET SO_RCVBUF 8192 4%N;
     Getopt 0 17; Setsockopt SOL_SOCKET SO_KEEPALIVE 1 4%N;
     Getopt (-3) 1; Setsockopt IPPROTO_TCP TCP_NODELAY 1 4%N;
     Getopt (-3) 2; Setsockopt IPPROTO_TCP TCP_KEEPIDLE 30 4%N;
     Getopt (-3) 3;
     Getopt (-3) 4; Setsockopt IPPROTO_TCP TCP_KEEPCNT 3 4%N].
Proof.
  intros r m.
  destruct (set_options_order (H := sample_consts) table_getopt all_knobs
              (endpoint r) 0) as (Hs & _ & Hex).
  destruct (Hex r (endpoint_resolves r)) as (_ & Ht & _).
  split; [exact Hs | exact Ht].
Defined.

Lemma tunings_applied_iff_set_witness :
  let r := mk_resolved 4096 8192 1 1 30 5 (-1) in
  let m := nn_tcp_set_options (H := sample_consts) table_getopt no_keepidle
             (endpoint r) 0 in
  resolves_to (H := sample_consts) table_getopt (endpoint r) r /\
  result m = Some tt /\
  calls_for TCP_KEEPIDLE (trace m) = [] /\
  calls_for TCP_KEEPINTVL (trace m)
  = [Setsockopt IPPROTO_TCP TCP_KEEPINTVL 5 4%N] /\
  calls_for TCP_KEEPCNT (trace m) = [].
Proof.
  intros r m. split; [apply endpoint_resolves|].
  destruct (tunings_applied_iff_set (H := sample_consts) table_getopt
              no_keepidle (endpoint r) 0 r (endpoint_resolves r))
    as (Hres & Hi & Hv & Hc).
  split; [exact Hres|].
  split; [exact (proj2 (Hi (or_intror eq_refl)))|].
  split; [exact (proj2 (Hv (or_intror eq_refl)))|].
  exact (proj2 (Hc (or_introl eq_refl))).
Defined.

Lemma example_endpoint_calls_witness :
  let r := mk_resolved 4096 8192 1 1 (-1) (-1) (-1) in
  let m := nn_tcp_set_options (H := sample_consts) table_getopt no_keepalive
             (endpoint r) 0 in
  resolves_to (H := sample_consts) table_getopt (endpoint r) r /\
  set_calls (trace m)
  = [Setsockopt SOL_SOCKET SO_SNDBUF 4096 4%N;
     Setsockopt SOL_SOCKET SO_RCVBUF 8192 4%N;
     Setsockopt IPPROTO_TCP TCP_NODELAY 1 4%N] /\
  calls_for TCP_KEEPIDLE (trace m) = [].
Proof.
  intros r m. split; [apply endpoint_resolves|].
  destruct (example_endpoint_calls (H := sample_consts) table_getopt
              no_keepalive (endpoint r) 0 1 (endpoint_resolves r))
    as (Hc & Hi & _).
  split; [exact Hc | exact Hi].
Defined.

(** On a platform with the keep-alive knob the same endpoint gets four
    calls, not three. *)
Lemma example_endpoint_four_calls :
  let r := mk_resolved 4096 8192 0 1 (-1) (-1) (-1) in
  let m := nn_tcp_set_options (H := sample_consts) table_getopt all_knobs
             (endpoint r) 0 in
  resolves_to (H := sample_consts) table_getopt (endpoint r) r /\
  result m = Some tt /\
  set_calls (trace m)
  = [Setsockopt SOL_SOCKET SO_SNDBUF 4096 4%N;
     Setsockopt SOL_SOCKET SO_RCVBUF 8192 4%N;
     Setsockopt SOL_SOCKET SO_KEEPALIVE 0 4%N;
     Setsockopt IPPROTO_TCP TCP_NODELAY 1 4%N] /\
  length (set_calls (trace m)) = 4%nat /\
  length (set_calls (trace m)) <> 3%nat.
Proof.
  intros r m. split; [apply endpoint_resolves|].
  repeat split. cbn. discriminate.
Qed.

Lemma setopt_domain_check_witness :
  case_labels_distinct (H := sample_consts) /\
  load_int (int_to_bytes (-1)) = -1 /\
  fst (nn_tcp_optset_setopt (H := sample_consts) nn_tcp_optset 2
         (int_to_bytes (-1)) 4%N) = Neg EINVAL /\
  fst (nn_tcp_optset_setopt (H := sample_consts) nn_tcp_optset 1
         (int_to_bytes (-1)) 4%N) = Neg EINVAL.
Proof.
  assert (Hl : load_int (int_to_bytes (-1)) = -1) by reflexivity.
  split; [apply sample_consts_distinct|]. split; [exact Hl|].
  destruct (setopt_domain_check (H := sample_consts) nn_tcp_optset
              (int_to_bytes (-1)) (-1) sample_consts_distinct Hl)
    as (Hn & _ & Ht).
  split.
  - apply (Ht 2).
    + cbn. tauto.
    + reflexivity.
  - apply Hn. split; discriminate.
Defined.

Lemma setopt_wrong_length_witness :
  3%N <> sizeof_int /\
  nn_tcp_optset_setopt (H := sample_consts) nn_tcp_optset 99
    [x01; x00; x00] 3%N = (Neg EINVAL, nn_tcp_optset).
Proof.
  assert (Hlen : 3%N <> sizeof_int) by discriminate.
  split; [exact Hlen|].
  apply (setopt_wrong_length (H := sample_consts) nn_tcp_optset 99
           [x01; x00; x00] 3%N Hlen).
Defined.

Lemma getopt_truncated_copy_witness :
  case_labels_distinct (H := sample_consts) /\
  known_option (H := sample_consts) 2 /\
  exists intval,
    stored (H := sample_consts) (mk_optset 1 300 (-1) (-1)) 2 intval /\
    nn_tcp_optset_getopt (H := sample_consts) (mk_optset 1 300 (-1) (-1)) 2
      [xff; xff; xff; xff; xff] 2%N
    = (Success,
       firstn 2 (int_to_bytes intval) ++ [xff; xff; xff],
       sizeof_int) /\
    length (firstn 2 (int_to_bytes intval)) = 2%nat.
Proof.
  assert (Hk : known_option (H := sample_consts) 2) by (cbn; tauto).
  split; [apply sample_consts_distinct|]. split; [exact Hk|].
  exact (getopt_truncated_copy (H := sample_consts)
           (mk_optset 1 300 (-1) (-1)) 2 [xff; xff; xff; xff; xff] 2%N
           sample_consts_distinct Hk).
Defined.

Lemma setopt_getopt_round_trip_witness :
  case_labels_distinct (H := sample_consts) /\
  (sizeof_int <= 6)%N /\
  round_trip (H := sample_consts) nn_tcp_optset 1 1
    [xff; xff; xff; xff; xff; xff] 6%N /\
  round_trip (H := sample_consts) nn_tcp_optset 3 300
    [xff; xff; xff; xff; xff; xff] 6%N.
Proof.
  assert (Hc : (sizeof_int <= 6)%N) by (unfold sizeof_int; lia).
  split; [apply sample_consts_distinct|]. split; [exact Hc|].
  split.
  - destruct (setopt_getopt_round_trip (H := sample_consts) nn_tcp_optset 1
                [xff; xff; xff; xff; xff; xff] 6%N sample_consts_distinct Hc)
      as (Hn & _).
    apply Hn. right. reflexivity.
  - destruct (setopt_getopt_round_trip (H := sample_consts) nn_tcp_optset 300
                [xff; xff; xff; xff; xff; xff] 6%N sample_consts_distinct Hc)
      as (_ & Ht).
    apply (Ht ltac:(unfold INT_MAX; lia) 3). cbn. tauto.
Defined.

Lemma unknown_option_unsupported_witness :
  ~ known_option (H := sample_consts) 99 /\
  nn_tcp_optset_getopt (H := sample_consts) nn_tcp_optset 99 [xff; xff] 2%N
  = (Neg ENOPROTOOPT, [xff; xff], 2%N) /\
  nn_tcp_optset_setopt (H := sample_consts) nn_tcp_optset 99
    (int_to_bytes 1) sizeof_int
  = (Neg ENOPROTOOPT, nn_tcp_optset).
Proof.
  assert (Hk : ~ known_option (H := sample_consts) 99)
    by (cbn; intuition discriminate).
  split; [exact Hk|].
  split.
  - apply (unknown_option_unsupported (H := sample_consts) nn_tcp_optset 99
             [xff; xff] 2%N Hk).
  - apply (unknown_option_unsupported (H := sample_consts) nn_tcp_optset 99
             (int_to_bytes 1) 2%N Hk).
Defined.

Lemma fresh_optset_defaults_witness :
  case_labels_distinct (H := sample_consts) /\
  (sizeof_int <= 4)%N /\
  exists buf,
    nn_tcp_optset_getopt (H := sample_consts) nn_tcp_optset 2
      [x00; x00; x00; x00] 4%N
    = (Success, buf, sizeof_int) /\
    firstn (N.to_nat sizeof_int) buf = int_to_bytes (-1) /\
    load_int buf = -1.
Proof.
  assert (Hc : (sizeof_int <= 4)%N) by (unfold sizeof_int; lia).
  split; [apply sample_consts_distinct|]. split; [exact Hc|].
  apply (fresh_optset_defaults (H := sample_consts) [x00; x00; x00; x00] 4%N
           sample_consts_distinct Hc).
  cbn. tauto.
Defined.

(** The fresh option set read through [getopt]: [nodelay] is 0 and
    [keepcnt] is -1, which is stored as four bytes 255. *)
Example fresh_optset_bytes :
  nn_tcp_optset_getopt (H := sample_consts) nn_tcp_optset 1
    [x11; x11; x11; x11] 4%N
  = (Success, [x00; x00; x00; x00], 4%N) /\
  nn_tcp_optset_getopt (H := sample_consts) nn_tcp_optset 4
    [x11; x11; x11; x11] 4%N
  = (Success, [xff; xff; xff; xff], 4%N).
Proof. split; vm_compute; reflexivity. Qed.

(** Setting [NN_TCP_KEEPIDLE] to 300 changes that field only; setting it to
    0 is refused and changes nothing. *)
Example setopt_keepidle_runs :
  nn_tcp_optset_setopt (H := sample_consts) nn_tcp_optset 2
    [x2c; x01; x00; x00] 4%N
  = (Success, mk_optset 0 300 (-1) (-1)) /\
  nn_tcp_optset_setopt (H := sample_consts) nn_tcp_optset 2
    [x00; x00; x00; x00] 4%N
  = (Neg EINVAL, nn_tcp_optset).
Proof. split; vm_compute; reflexivity. Qed.

(* ================================================================= *)
(** * Further properties of the option set *)

Section OptionSetCalls.

Context `{nn_consts}.

(** What a [setopt] call does is fixed by its arguments: it is refused with
    the same error whatever the option set holds, or it stores the integer
    passed, which is of the domain, in the field of its [case]. *)
Lemma setopt_cases (option : Z) (optval : list byte) (optvallen : size_t) :
  (exists e, forall o,
      nn_tcp_optset_setopt o option optval optvallen = (Neg e, o)) \/
  (option = NN_TCP_NODELAY /\
   (load_int optval = 0 \/ load_int optval = 1) /\
   forall o, nn_tcp_optset_setopt o option optval optvallen
             = (Success, mk_optset (load_int optval) (keepidle o)
                           (keepintvl o) (keepcnt o))) \/
  (option = NN_TCP_KEEPIDLE /\ 0 < load_int optval /\
   forall o, nn_tcp_optset_setopt o option optval optvallen
             = (Success, mk_optset (nodelay o) (load_int optval)
                           (keepintvl o) (keepcnt o))) \/
  (option = NN_TCP_KEEPINTVL /\ 0 < load_int optval /\
   forall o, nn_tcp_optset_setopt o option optval optvallen
             = (Success, mk_optset (nodelay o) (keepidle o)
                           (load_int optval) (keepcnt o))) \/
  (option = NN_TCP_KEEPCNT /\ 0 < load_int optval /\
   forall o, nn_tcp_optset_setopt o option optval optvallen
             = (Success, mk_optset (nodelay o) (keepidle o) (keepintvl o)
                           (load_int optval))).
Proof.
  unfold nn_tcp_optset_setopt.
  destruct (negb (optvallen =? sizeof_int)%N);
    [left; exists EINVAL; reflexivity|].
  destruct (Z.eqb_spec option NN_TCP_NODELAY) as [En|_].
  { destruct (Z.eqb_spec (load_int optval) 0);
      destruct (Z.eqb_spec (load_int optval) 1); cbn [negb andb];
      try (right; left; split; [exact En|]; split; [lia|]; reflexivity).
    left. exists EINVAL. reflexivity. }
  destruct (Z.eqb_spec option NN_TCP_KEEPIDLE) as [Ei|_].
  { destruct (Z.leb_spec (load_int optval) 0).
    - left. exists EINVAL. reflexivity.
    - right. right. left. split; [exact Ei|]. split; [lia|]. reflexivity. }
  destruct (Z.eqb_spec option NN_TCP_KEEPINTVL) as [Ev|_].
  { destruct (Z.leb_spec (load_int optval) 0).
    - left. exists EINVAL. reflexivity.
    - right. right. right. left.
      split; [exact Ev|]. split; [lia|]. reflexivity. }
  destruct (Z.eqb_spec option NN_TCP_KEEPCNT) as [Ec|_].
  { destruct (Z.leb_spec (load_int optval) 0).
    - left. exists EINVAL. reflexivity.
    - right. right. right. right.
      split; [exact Ec|]. split; [lia|]. reflexivity. }
  left. exists ENOPROTOOPT. reflexivity.
Qed.

(** Split on what a call does and simplify with it. *)
Ltac by_setopt_cases option optval optvallen Hcall :=
  destruct (setopt_cases option optval optvallen)
    as [[? Hcall]|[(? & ? & Hcall)|[(? & ? & Hcall)
       |[(? & ? & Hcall)|(? & ? & Hcall)]]]].

Lemma setopt_all_valid (optset : nn_tcp_optset_t) (calls : list setopt_call) :
  optset_valid optset -> optset_valid (setopt_all optset calls).
Proof.
  revert optset. induction calls as [|c calls IH]; intros optset Hv.
  - exact Hv.
  - cbn [setopt_all fold_left]. apply IH. apply optset_valid_setopt. exact Hv.
Qed.

(** A tuning that holds a positive value holds one after any call. *)
Lemma setopt_keeps_positive (o : nn_tcp_optset_t) (option : Z)
    (optval : list byte) (optvallen : size_t) :
  let o' := snd (nn_tcp_optset_setopt o option optval optvallen) in
  (0 < keepidle o -> 0 < keepidle o') /\
  (0 < keepintvl o -> 0 < keepintvl o') /\
  (0 < keepcnt o -> 0 < keepcnt o').
Proof.
  by_setopt_cases option optval optvallen Hcall; rewrite Hcall;
    cbn [snd keepidle keepintvl keepcnt]; auto.
Qed.

(** X1.  Starting from the default option set, any sequence of [setopt]
    calls, accepted or refused, leaves [nodelay] at 0 or 1 and each tuning at
    -1 or at a positive [int]. *)
Theorem setopt_sequence_valid (calls : list setopt_call) :
  optset_valid (setopt_all nn_tcp_optset calls).
Proof.
  apply setopt_all_valid, optset_valid_default.
Qed.

(** X2.  No sequence of [setopt] calls brings a tuning back to "not set":
    once [keepidle], [keepintvl] or [keepcnt] is positive it stays
    positive. *)
Theorem tuning_never_unset (o : nn_tcp_optset_t) (calls : list setopt_call) :
  (0 < keepidle o -> 0 < keepidle (setopt_all o calls)) /\
  (0 < keepintvl o -> 0 < keepintvl (setopt_all o calls)) /\
  (0 < keepcnt o -> 0 < keepcnt (setopt_all o calls)).
Proof.
  revert o. induction calls as [|c calls IH]; intros o.
  - cbn. auto.
  - cbn [setopt_all fold_left].
    pose proof (setopt_keeps_positive o (call_option c) (call_optval c)
                  (call_optvallen c)) as (Hi & Hv & Hc).
    cbv zeta in Hi, Hv, Hc.
    specialize (IH (snd (nn_tcp_optset_setopt o (call_option c)
                           (call_optval c) (call_optvallen c)))).
    unfold setopt_all in IH. destruct IH as (Ii & Iv & Ic). auto.
Qed.

(** X3.  Reading an option of a valid option set with room for an [int]
    and setting it again from what was read never changes the option set.
    For [NN_TCP_NODELAY] the call succeeds; for a tuning it succeeds when the
    tuning was set and is refused with [-EINVAL] when it still holds -1. *)
Theorem write_back_unchanged (o : nn_tcp_optset_t) (optval : list byte)
    (c : size_t) :
  case_labels_distinct ->
  optset_valid o ->
  (sizeof_int <= c)%N ->
  write_back o NN_TCP_NODELAY optval c = (Success, o) /\
  write_back o NN_TCP_KEEPIDLE optval c
  = (if keepidle o =? -1 then Neg EINVAL else Success, o) /\
  write_back o NN_TCP_KEEPINTVL optval c
  = (if keepintvl o =? -1 then Neg EINVAL else Success, o) /\
  write_back o NN_TCP_KEEPCNT optval c
  = (if keepcnt o =? -1 then Neg EINVAL else Success, o).
Proof.
  intros Hd (Hn & Hi & Hv & Hc) Hcap.
  destruct (getopt_intval_known o Hd) as (Gn & Gi & Gv & Gc).
  assert (Hload : forall v, in_int_range v ->
            load_int (int_to_bytes v ++ skipn (N.to_nat sizeof_int) optval) = v).
  { intros v Hr. rewrite load_int_app by apply length_int_to_bytes.
    apply load_int_to_bytes. exact Hr. }
  unfold write_back.
  rewrite (getopt_whole o _ _ optval c Gn Hcap),
          (getopt_whole o _ _ optval c Gi Hcap),
          (getopt_whole o _ _ optval c Gv Hcap),
          (getopt_whole o _ _ optval c Gc Hcap).
  match goal with
  | |- context [nn_tcp_optset_setopt o NN_TCP_NODELAY ?b _] =>
      destruct (setopt_known o b Hd) as (Sn & _)
  end.
  match goal with
  | |- context [nn_tcp_optset_setopt o NN_TCP_KEEPIDLE ?b _] =>
      destruct (setopt_known o b Hd) as (_ & Si & _)
  end.
  match goal with
  | |- context [nn_tcp_optset_setopt o NN_TCP_KEEPINTVL ?b _] =>
      destruct (setopt_known o b Hd) as (_ & _ & Sv & _)
  end.
  match goal with
  | |- context [nn_tcp_optset_setopt o NN_TCP_KEEPCNT ?b _] =>
      destruct (setopt_known o b Hd) as (_ & _ & _ & Sc)
  end.
  cbv zeta in Sn, Si, Sv, Sc.
  rewrite Sn, Si, Sv, Sc.
  rewrite !Hload
    by (unfold in_int_range, INT_MIN, INT_MAX in *; lia).
  destruct o as [n i v k]. cbn [nodelay keepidle keepintvl keepcnt] in *.
  repeat split.
  - destruct (Z.eqb_spec n 0); destruct (Z.eqb_spec n 1); cbn [negb andb];
      try reflexivity; lia.
  - destruct (Z.leb_spec i 0); destruct (Z.eqb_spec i (-1));
      try reflexivity; lia.
  - destruct (Z.leb_spec v 0); destruct (Z.eqb_spec v (-1));
      try reflexivity; lia.
  - destruct (Z.leb_spec k 0); destruct (Z.eqb_spec k (-1));
      try reflexivity; lia.
Qed.

(** X4.  Two [setopt] calls on different options can be issued in either
    order: the option set that results is the same, and each call returns
    what it returns in the other order. *)
Theorem setopt_commute (o : nn_tcp_optset_t)
    (option1 : Z) (optval1 : list byte) (optvallen1 : size_t)
    (option2 : Z) (optval2 : list byte) (optvallen2 : size_t) :
  option1 <> option2 ->
  let r1 := nn_tcp_optset_setopt o option1 optval1 optvallen1 in
  let r12 := nn_tcp_optset_setopt (snd r1) option2 optval2 optvallen2 in
  let r2 := nn_tcp_optset_setopt o option2 optval2 optvallen2 in
  let r21 := nn_tcp_optset_setopt (snd r2) option1 optval1 optvallen1 in
  snd r12 = snd r21 /\ fst r1 = fst r21 /\ fst r2 = fst r12.
Proof.
  intros Hne. cbv zeta.
  by_setopt_cases option1 optval1 optvallen1 Hcall1;
    by_setopt_cases option2 optval2 optvallen2 Hcall2;
    try congruence;
    rewrite ?Hcall1, ?Hcall2; cbn [fst snd];
    rewrite ?Hcall1, ?Hcall2; cbn [fst snd nodelay keepidle keepintvl keepcnt];
    repeat split.
Qed.

(** X5.  Of two [setopt] calls on the same option, the second being
    accepted, only the second counts: the option set is the one the second
    call alone would give. *)
Theorem setopt_last_wins (o : nn_tcp_optset_t) (option : Z)
    (optval1 : list byte) (optvallen1 : size_t)
    (optval2 : list byte) (optvallen2 : size_t) :
  case_labels_distinct ->
  fst (nn_tcp_optset_setopt o option optval2 optvallen2) = Success ->
  snd (nn_tcp_optset_setopt
         (snd (nn_tcp_optset_setopt o option optval1 optvallen1))
         option optval2 optvallen2)
  = snd (nn_tcp_optset_setopt o option optval2 optvallen2).
Proof.
  intros Hd Hok. destruct (labels_neq Hd) as (?&?&?&?&?&?).
  by_setopt_cases option optval1 optvallen1 Hcall1;
    by_setopt_cases option optval2 optvallen2 Hcall2;
    try (rewrite Hcall2 in Hok; discriminate Hok);
    try congruence;
    rewrite ?Hcall1, ?Hcall2; cbn [fst snd];
    rewrite ?Hcall1, ?Hcall2; cbn [fst snd nodelay keepidle keepintvl keepcnt];
    reflexivity.
Qed.

(** X6.  A [setopt] call on one option, accepted or refused, does not
    change what [getopt] returns for any other option. *)
Theorem getopt_other_option (o : nn_tcp_optset_t) (option : Z)
    (optval : list byte) (optvallen : size_t) (option' : Z)
    (dst : list byte) (c : size_t) :
  option <> option' ->
  nn_tcp_optset_getopt
    (snd (nn_tcp_optset_setopt o option optval optvallen)) option' dst c
  = nn_tcp_optset_getopt o option' dst c.
Proof.
  intros Hne.
  by_setopt_cases option optval optvallen Hcall; rewrite Hcall; cbn [snd];
    try reflexivity;
    unfold nn_tcp_optset_getopt, getopt_intval;
    cbn [nodelay keepidle keepintvl keepcnt];
    repeat match goal with
           | |- context [option' =? ?l] => destruct (Z.eqb_spec option' l)
           end;
    try reflexivity; congruence.
Qed.

(** X7.  When the destination holds the bytes that are to be copied,
    [getopt] returns a destination of the same length and leaves every byte
    from position [min c (sizeof (int))] on as it was, for known and unknown
    options alike. *)
Theorem getopt_within_capacity (o : nn_tcp_optset_t) (option : Z)
    (optval : list byte) (c : size_t) :
  (N.min c sizeof_int <= N.of_nat (length optval))%N ->
  let '(_, buf, _) := nn_tcp_optset_getopt o option optval c in
  length buf = length optval /\
  forall i, (N.to_nat (N.min c sizeof_int) <= i)%nat ->
            nth_error buf i = nth_error optval i.
Proof.
  intros Hroom. unfold nn_tcp_optset_getopt.
  destruct (getopt_intval o option) as [intval|]; [|split; reflexivity].
  assert (Hn : (if (c <? sizeof_int)%N then c else sizeof_int)
               = N.min c sizeof_int).
  { destruct (N.ltb_spec c sizeof_int); lia. }
  rewrite Hn. unfold memcpy.
  set (n := N.to_nat (N.min c sizeof_int)) in *.
  assert (Hn4 : (n <= N.to_nat sizeof_int)%nat) by (subst n; lia).
  assert (Hnl : (n <= length optval)%nat) by (subst n; lia).
  assert (Hlen : length (firstn n (int_to_bytes intval)) = n).
  { rewrite length_firstn, length_int_to_bytes. lia. }
  split.
  - rewrite length_app, Hlen, length_skipn. lia.
  - intros i Hi.
    rewrite nth_error_app2 by lia.
    rewrite Hlen, nth_error_skipn. f_equal. lia.
Qed.

End OptionSetCalls.

(* ================================================================= *)
(** * Further properties of applying the options *)

Lemma Subseq_In {A : Type} (l l' : list A) (x : A) :
  Subseq l l' -> In x l -> In x l'.
Proof.
  intros Hs. induction Hs; simpl; intros Hin; tauto.
Qed.

Lemma Subseq_NoDup {A : Type} (l l' : list A) :
  Subseq l l' -> NoDup l' -> NoDup l.
Proof.
  intros Hs. induction Hs; intros Hnd.
  - constructor.
  - inversion Hnd; subst. auto.
  - inversion Hnd as [|? ? Hnin Hnd']; subst. constructor; [|auto].
    intros Hin. apply Hnin. eapply Subseq_In; eassumption.
Qed.

Lemma canonical_names_NoDup : NoDup canonical_names.
Proof.
  unfold canonical_names.
  repeat constructor; simpl; intuition discriminate.
Qed.

(** Follow a run through every outcome of its reads, of its assertions and
    of its tests on the value read. *)
Ltac run_cases :=
  unfold nn_tcp_set_options, epbase_getopt;
  match goal with
  | pf : platform |- _ => destruct pf as [[] [] [] [] []]
  end;
  cbn;
  repeat (match goal with
          | |- context [let (_, _) := ?g in _] =>
              lazymatch g with
              | context [bind] => fail
              | _ => destruct g as [? ?]
              end
          | |- context [N.eqb ?sz ?n] => destruct (N.eqb sz n)
          | |- context [Z.geb ?v 0] => destruct (Z.geb v 0)
          end; cbn).

Section SetOptionsRuns.

Context `{nn_consts} {epbase : Type}.
Variable nn_epbase_getopt : epbase -> Z -> Z -> Z -> size_t -> Z * size_t.


(** The names of the options set by any run follow the order of the source
    text. *)
Lemma set_options_names_ordered (pf : platform) (source : epbase) (val : Z) :
  Subseq (applied_names
            (trace (nn_tcp_set_options nn_epbase_getopt pf source val)))
         canonical_names.
Proof.
  rewrite applied_names_steps.
  apply (Subseq_flat_map
           (fun s => match s with
                     | Apply _ optname => [optname]
                     | Read _ _ => []
                     end)
           _ _ (set_options_steps_ordered nn_epbase_getopt pf source val)).
Qed.

(** X9.  Whatever the platform and the endpoint, every [setsockopt] call of
    a run names its option at the level the option belongs to ([SOL_SOCKET]
    for the [SO_] options, [IPPROTO_TCP] for the [TCP_] options) and passes
    the size of an [int], and no option is set twice. *)
Theorem set_options_calls_well_formed (pf : platform) (source : epbase)
    (val : Z) :
  let m := nn_tcp_set_options nn_epbase_getopt pf source val in
  Forall call_ok (trace m) /\ NoDup (applied_names (trace m)).
Proof.
  cbv zeta. split.
  - run_cases; unfold trace; cbn [snd]; repeat constructor.
  - eapply Subseq_NoDup;
      [apply set_options_names_ordered | apply canonical_names_NoDup].
Qed.

(** X10.  Whatever the platform and the endpoint, a run goes through the
    seven blocks in order, and of each block it has nothing, or the read
    alone, or the read directly followed by the call for the same option: no
    call is issued without the read of its option just before it. *)
Theorem set_options_read_then_call (pf : platform) (source : epbase)
    (val : Z) :
  Blocks (steps (nn_tcp_set_options nn_epbase_getopt pf source val))
         canonical_blocks.
Proof.
  run_cases; unfold steps, trace, canonical_blocks; cbn [snd map step_of];
    repeat first [ apply Blocks_both | apply Blocks_read
                 | apply Blocks_skip | apply Blocks_nil ].
Qed.

(** X11.  The return code of the reads is not looked at: for an endpoint
    whose reads fail leaving [val] and [sz] as they were, the assertions
    hold, the run completes, and every call is handed the content [val] had
    on entry (the tunings only when that content is not negative). *)
Theorem set_options_stale_reads (pf : platform) (source : epbase) (val : Z) :
  leaves_untouched nn_epbase_getopt source ->
  nn_tcp_set_options nn_epbase_getopt pf source val
  = (Some tt, expected_trace pf (mk_resolved val val val val val val val)).
Proof.
  intros Hu. unfold leaves_untouched in Hu.
  destruct pf as [ka nd ki kv kc].
  unfold nn_tcp_set_options, expected_trace, block_events, epbase_getopt.
  cbn [defined_SO_KEEPALIVE defined_TCP_NODELAY defined_TCP_KEEPIDLE
       defined_TCP_KEEPINTVL defined_TCP_KEEPCNT
       r_sndbuf r_rcvbuf r_keepalive r_nodelay r_keepidle r_keepintvl
       r_keepcnt].
  rewrite <- (Z.geb_leb val 0).
  destruct (val >=? 0) eqn:Hge;
    destruct ka, nd, ki, kv, kc; cbn;
    repeat (first [rewrite Hu | rewrite Hge]; cbn);
    reflexivity.
Qed.

(** X12.  For an endpoint that resolves every option, the content the
    uninitialised [val] has on entry does not show in the run. *)
Theorem set_options_entry_value_unused (pf : platform) (source : epbase)
    (val val' : Z) (r : resolved) :
  resolves_to nn_epbase_getopt source r ->
  nn_tcp_set_options nn_epbase_getopt pf source val
  = nn_tcp_set_options nn_epbase_getopt pf source val'.
Proof.
  intros Hr.
  rewrite (set_options_trace nn_epbase_getopt pf source val r Hr),
          (set_options_trace nn_epbase_getopt pf source val' r Hr).
  reflexivity.
Qed.

Lemma In_block_events (e : event) (enabled applies : bool) (level option : Z)
    (os_lvl : os_level) (optname : os_optname) (v : Z) :
  In e (block_events enabled applies level option os_lvl optname v) ->
  e = Getopt level option \/
  (applies = true /\ e = Setsockopt os_lvl optname v sizeof_int).
Proof.
  unfold block_events. destruct enabled, applies; simpl; intuition.
Qed.

(** X13.  For an option set configured from the defaults by [setopt] calls
    only, and an endpoint that resolves its TCP options to the fields of that
    option set: the run completes; the call for a tuning is issued exactly
    when the platform has the knob and the tuning is not -1; the value handed
    over for no-delay is 0 or 1 and the value handed over for a tuning is a
    positive [int]. *)
Theorem configured_endpoint_calls (pf : platform) (source : epbase) (val : Z)
    (calls : list setopt_call) (sndbuf rcvbuf keepalive : Z) :
  let o := setopt_all nn_tcp_optset calls in
  resolves_to nn_epbase_getopt source
    (resolved_from sndbuf rcvbuf keepalive o) ->
  let m := nn_tcp_set_options nn_epbase_getopt pf source val in
  result m = Some tt /\
  (issued TCP_KEEPIDLE (trace m)
   <-> defined_TCP_KEEPIDLE pf = true /\ keepidle o <> -1) /\
  (issued TCP_KEEPINTVL (trace m)
   <-> defined_TCP_KEEPINTVL pf = true /\ keepintvl o <> -1) /\
  (issued TCP_KEEPCNT (trace m)
   <-> defined_TCP_KEEPCNT pf = true /\ keepcnt o <> -1) /\
  (forall level optname v len,
     In (Setsockopt level optname v len) (trace m) ->
     (optname = TCP_NODELAY -> v = 0 \/ v = 1) /\
     (optname = TCP_KEEPIDLE \/ optname = TCP_KEEPINTVL \/
      optname = TCP_KEEPCNT -> 0 < v <= INT_MAX)).
Proof.
  intros o Hr m. subst m.
  assert (Hvalid : optset_valid o)
    by (apply setopt_all_valid, optset_valid_default).
  destruct Hvalid as (Hn & Hi & Hv & Hc).
  rewrite (set_options_trace nn_epbase_getopt pf source val _ Hr).
  cbn [result trace fst snd]. unfold issued.
  rewrite applied_names_expected.
  destruct (issued_expected pf (resolved_from sndbuf rcvbuf keepalive o))
    as (Ii & Iv & Ic).
  cbn [resolved_from r_keepidle r_keepintvl r_keepcnt] in Ii, Iv, Ic.
  split; [reflexivity|].
  split; [rewrite Ii; intuition lia|].
  split; [rewrite Iv; intuition lia|].
  split; [rewrite Ic; intuition lia|].
  intros level optname v len Hin.
  unfold expected_trace in Hin.
  repeat rewrite in_app_iff in Hin.
  cbn [resolved_from r_sndbuf r_rcvbuf r_keepalive r_nodelay r_keepidle
       r_keepintvl r_keepcnt] in Hin.
  repeat match goal with
         | Hor : _ \/ _ |- _ => destruct Hor as [Hor|Hor]
         end;
    apply In_block_events in Hin;
    destruct Hin as [Hin|[Hap Hin]]; try discriminate Hin;
    inversion Hin; subst; clear Hin;
    try apply Z.leb_le in Hap;
    unfold INT_MAX in *;
    (split; intros Hname);
    try discriminate Hname;
    try assumption;
    try (destruct Hname as [Hname|[Hname|Hname]]; discriminate Hname);
    lia.
Qed.

End SetOptionsRuns.

(* ================================================================= *)
(** ** The further properties on concrete inputs *)

(** Three calls on the default option set: keep-idle 300 is stored,
    keep-count 0 is refused, no-delay 1 is stored. *)
Example configured_sample :
  setopt_all (H := sample_consts) nn_tcp_optset
    [ mk_call 2 [x2c; x01; x00; x00] 4%N;
      mk_call 4 [x00; x00; x00; x00] 4%N;
      mk_call 1 [x01; x00; x00; x00] 4%N ]
  = mk_optset 1 300 (-1) (-1).
Proof. vm_compute. reflexivity. Qed.

Lemma write_back_unchanged_witness :
  case_labels_distinct (H := sample_consts) /\
  optset_valid (mk_optset 1 300 (-1) (-1)) /\
  (sizeof_int <= 4)%N /\
  write_back (H := sample_consts) (mk_optset 1 300 (-1) (-1)) 2
    [x00; x00; x00; x00] 4%N
  = (Success, mk_optset 1 300 (-1) (-1)) /\
  write_back (H := sample_consts) (mk_optset 1 300 (-1) (-1)) 3
    [x00; x00; x00; x00] 4%N
  = (Neg EINVAL, mk_optset 1 300 (-1) (-1)).
Proof.
  assert (Hv : optset_valid (mk_optset 1 300 (-1) (-1))).
  { unfold optset_valid, INT_MAX. cbn. lia. }
  assert (Hc : (sizeof_int <= 4)%N) by (unfold sizeof_int; lia).
  split; [apply sample_consts_distinct|]. split; [exact Hv|].
  split; [exact Hc|].
  destruct (write_back_unchanged (H := sample_consts)
              (mk_optset 1 300 (-1) (-1)) [x00; x00; x00; x00] 4%N
              sample_consts_distinct Hv Hc) as (_ & Hi & Hw & _).
  split; [exact Hi | exact Hw].
Defined.

Lemma setopt_commute_witness :
  1 <> 2 /\
  snd (nn_tcp_optset_setopt (H := sample_consts)
         (snd (nn_tcp_optset_setopt (H := sample_consts) nn_tcp_optset
                 1 [x01; x00; x00; x00] 4%N))
         2 [x2c; x01; x00; x00] 4%N)
  = snd (nn_tcp_optset_setopt (H := sample_consts)
           (snd (nn_tcp_optset_setopt (H := sample_consts) nn_tcp_optset
                   2 [x2c; x01; x00; x00] 4%N))
           1 [x01; x00; x00; x00] 4%N).
Proof.
  assert (Hne : 1 <> 2) by discriminate.
  split; [exact Hne|].
  destruct (setopt_commute (H := sample_consts) nn_tcp_optset
              1 [x01; x00; x00; x00] 4%N 2 [x2c; x01; x00; x00] 4%N Hne)
    as (Hs & _).
  exact Hs.
Defined.

Lemma setopt_last_wins_witness :
  case_labels_distinct (H := sample_consts) /\
  fst (nn_tcp_optset_setopt (H := sample_consts) nn_tcp_optset
         2 [x2c; x01; x00; x00] 4%N) = Success /\
  snd (nn_tcp_optset_setopt (H := sample_consts)
         (snd (nn_tcp_optset_setopt (H := sample_consts) nn_tcp_optset
                 2 [x05; x00; x00; x00] 4%N))
         2 [x2c; x01; x00; x00] 4%N)
  = snd (nn_tcp_optset_setopt (H := sample_consts) nn_tcp_optset
           2 [x2c; x01; x00; x00] 4%N).
Proof.
  assert (Hok : fst (nn_tcp_optset_setopt (H := sample_consts) nn_tcp_optset
                       2 [x2c; x01; x00; x00] 4%N) = Success)
    by reflexivity.
  split; [apply sample_consts_distinct|]. split; [exact Hok|].
  exact (setopt_last_wins (H := sample_consts) nn_tcp_optset 2
           [x05; x00; x00; x00] 4%N [x2c; x01; x00; x00] 4%N
           sample_consts_distinct Hok).
Defined.

Lemma getopt_other_option_witness :
  2 <> 1 /\
  nn_tcp_optset_getopt (H := sample_consts)
    (snd (nn_tcp_optset_setopt (H := sample_consts) nn_tcp_optset
            2 [x2c; x01; x00; x00] 4%N))
    1 [xff; xff; xff; xff] 4%N
  = nn_tcp_optset_getopt (H := sample_consts) nn_tcp_optset
      1 [xff; xff; xff; xff] 4%N.
Proof.
  assert (Hne : 2 <> 1) by discriminate.
  split; [exact Hne|].
  exact (getopt_other_option (H := sample_consts) nn_tcp_optset 2
           [x2c; x01; x00; x00] 4%N 1 [xff; xff; xff; xff] 4%N Hne).
Defined.

Lemma getopt_within_capacity_witness :
  (N.min 2 sizeof_int <= N.of_nat (length [xff; xff; xff; xff; xff]))%N /\
  length (snd (fst (nn_tcp_optset_getopt (H := sample_consts)
                      (mk_optset 1 300 (-1) (-1)) 2
                      [xff; xff; xff; xff; xff] 2%N))) = 5%nat /\
  nth_error (snd (fst (nn_tcp_optset_getopt (H := sample_consts)
                         (mk_optset 1 300 (-1) (-1)) 2
                         [xff; xff; xff; xff; xff] 2%N))) 2 = Some xff.
Proof.
  assert (Hroom : (N.min 2 sizeof_int
                   <= N.of_nat (length [xff; xff; xff; xff; xff]))%N)
    by (unfold sizeof_int; cbn; lia).
  split; [exact Hroom|].
  pose proof (getopt_within_capacity (H := sample_consts)
                (mk_optset 1 300 (-1) (-1)) 2 [xff; xff; xff; xff; xff] 2%N
                Hroom) as Hw.
  destruct (nn_tcp_optset_getopt (H := sample_consts)
              (mk_optset 1 300 (-1) (-1)) 2 [xff; xff; xff; xff; xff] 2%N)
    as [[r buf] sz].
  destruct Hw as (Hlen & Hnth).
  split; [exact Hlen|].
  exact (Hnth 2%nat (le_n 2)).
Defined.

Lemma set_options_stale_reads_witness :
  leaves_untouched stale_getopt tt /\
  nn_tcp_set_options (H := sample_consts) stale_getopt all_knobs tt (-5)
  = (Some tt,
     [Getopt 0 2; Setsockopt SOL_SOCKET SO_SNDBUF (-5) 4%N;
      Getopt 0 3; Setsockopt SOL_SOCKET SO_RCVBUF (-5) 4%N;
      Getopt 0 17; Setsockopt SOL_SOCKET SO_KEEPALIVE (-5) 4%N;
      Getopt (-3) 1; Setsockopt IPPROTO_TCP TCP_NODELAY (-5) 4%N;
      Getopt (-3) 2; Getopt (-3) 3; Getopt (-3) 4]).
Proof.
  assert (Hu : leaves_untouched stale_getopt tt)
    by (intros level option val sz; reflexivity).
  split; [exact Hu|].
  exact (set_options_stale_reads (H := sample_consts) stale_getopt all_knobs
           tt (-5) Hu).
Defined.

Lemma set_options_entry_value_unused_witness :
  let r := mk_resolved 4096 8192 1 1 30 5 3 in
  resolves_to (H := sample_consts) table_getopt (endpoint r) r /\
  nn_tcp_set_options (H := sample_consts) table_getopt all_knobs
    (endpoint r) 0
  = nn_tcp_set_options (H := sample_consts) table_getopt all_knobs
      (endpoint r) 12345.
Proof.
  intros r. split; [apply endpoint_resolves|].
  exact (set_options_entry_value_unused (H := sample_consts) table_getopt
           all_knobs (endpoint r) 0 12345 r (endpoint_resolves r)).
Defined.

Lemma configured_endpoint_calls_witness :
  let calls := [ mk_call 2 [x2c; x01; x00; x00] 4%N;
                 mk_call 4 [x00; x00; x00; x00] 4%N;
                 mk_call 1 [x01; x00; x00; x00] 4%N ] in
  let r := resolved_from 4096 8192 1
             (setopt_all (H := sample_consts) nn_tcp_optset calls) in
  let m := nn_tcp_set_options (H := sample_consts) table_getopt all_knobs
             (endpoint r) 0 in
  resolves_to (H := sample_consts) table_getopt (endpoint r) r /\
  result m = Some tt /\
  issued TCP_KEEPIDLE (trace m).
Proof.
  intros calls r m. split; [apply endpoint_resolves|].
  destruct (configured_endpoint_calls (H := sample_consts) table_getopt
              all_knobs (endpoint r) 0 calls 4096 8192 1
              (endpoint_resolves r)) as (Hres & Hi & _).
  split; [exact Hres|].
  apply Hi. split; [reflexivity|]. vm_compute. discriminate.
Defined.
